(** * vk_parser: the parser-request store

    A shallow embedding of [vk_parser/storages/parser_request.py] together
    with the pydantic models of [vk_parser/generals/models/parser_request.py]
    and the session wrapper of [vk_parser/db/utils.py].

    The relational table is a list of rows, a store operation is a
    computation in a small state-and-exception monad over a [World]
    (committed table, id sequence, server clock, scripted driver failures,
    emitted log records), and a session carries the uncommitted working
    copy of the table that [commit] publishes. *)

From Stdlib Require Import ZArith List String Bool Lia Permutation Sorted FinFun.
Import ListNotations.

Local Open Scope string_scope.
Local Open Scope list_scope.
Local Open Scope Z_scope.

Set Implicit Arguments.

(** ** Enumerations *)

(** Modelled from the spec: [vk_parser/generals/enums.py] is not part of the
    sources at hand.  Section 6 fixes the parser types at
    [VK_SIMPLE_DOWNLOAD] and [VK_DOWNLOAD_AND_PARSED_POSTS]; both enums are
    string enums (they are compared with JSON text and rendered by
    [_choices] of [db/utils.py]). *)
Inductive ParserTypes : Type :=
| VK_SIMPLE_DOWNLOAD
| VK_DOWNLOAD_AND_PARSED_POSTS.

(** Modelled from the spec: section 3 lists the five request statuses. *)
Inductive RequestStatus : Type :=
| PENDING
| PROCESSING
| SUCCESSFUL
| EMPTY
| FAILED.

(** Modelled from the spec: the enumeration order of [ParserTypes], the
    order in which [for pt in ParserTypes] visits its members. *)
Definition ParserTypes_members : list ParserTypes :=
  [VK_SIMPLE_DOWNLOAD; VK_DOWNLOAD_AND_PARSED_POSTS].

(** Modelled from the spec: the string value of a parser type. *)
Definition ParserTypes_value (pt : ParserTypes) : string :=
  match pt with
  | VK_SIMPLE_DOWNLOAD => "VK_SIMPLE_DOWNLOAD"
  | VK_DOWNLOAD_AND_PARSED_POSTS => "VK_DOWNLOAD_AND_PARSED_POSTS"
  end.

Definition ParserTypes_eqb (a b : ParserTypes) : bool :=
  match a, b with
  | VK_SIMPLE_DOWNLOAD, VK_SIMPLE_DOWNLOAD => true
  | VK_DOWNLOAD_AND_PARSED_POSTS, VK_DOWNLOAD_AND_PARSED_POSTS => true
  | _, _ => false
  end.

Definition RequestStatus_eqb (a b : RequestStatus) : bool :=
  match a, b with
  | PENDING, PENDING => true
  | PROCESSING, PROCESSING => true
  | SUCCESSFUL, SUCCESSFUL => true
  | EMPTY, EMPTY => true
  | FAILED, FAILED => true
  | _, _ => false
  end.

Definition RequestStatus_members : list RequestStatus :=
  [PENDING; PROCESSING; SUCCESSFUL; EMPTY; FAILED].

(** ** Semi-structured data *)

(** What the JSON columns [input_data] and [result_data] hold.  A Python
    [dict] is an association list read by its first binding of a key. *)
#[warnings="-register-all"]
Inductive json : Type :=
| JNull
| JBool (b : bool)
| JNum (z : Z)
| JStr (s : string)
| JArr (l : list json)
| JObj (kv : list (string * json)).

Fixpoint assoc (k : string) (kv : list (string * json)) : option json :=
  match kv with
  | [] => None
  | (k', v) :: rest => if String.eqb k k' then Some v else assoc k rest
  end.

(** [j[k]] on a mapping; anything that is not a mapping has no fields. *)
Definition field (k : string) (j : json) : option json :=
  match j with
  | JObj kv => assoc k kv
  | _ => None
  end.

Definition opt_bind {A B : Type} (o : option A) (k : A -> option B) : option B :=
  match o with
  | Some a => k a
  | None => None
  end.

Fixpoint opt_all {A B : Type} (f : A -> option B) (l : list A) : option (list B) :=
  match l with
  | [] => Some []
  | a :: rest =>
      match f a, opt_all f rest with
      | Some b, Some bs => Some (b :: bs)
      | _, _ => None
      end
  end.

(** ** The pydantic models *)

(** The scalar validators of the pydantic library, which the models only
    name through their field annotations ([int], [str], [HttpUrl],
    [datetime]).  A time stamp is a number of ticks. *)
Class FieldValidators : Type := {
  v_int : json -> option Z;
  v_str : json -> option string;
  v_url : json -> option string;
  v_datetime : json -> option Z
}.

Module SimpleVkInputData.
Record t : Type := Build {
  group_url : string;
  max_age : Z
}.

(** [parser_type: Literal[ParserTypes.VK_SIMPLE_DOWNLOAD]] *)
Definition parser_type (_ : t) : ParserTypes := VK_SIMPLE_DOWNLOAD.

Definition model_validate `{FieldValidators} (j : json) : option t :=
  opt_bind (field "parser_type" j) (fun tag =>
  match tag with
  | JStr s =>
      if String.eqb s (ParserTypes_value VK_SIMPLE_DOWNLOAD) then
        opt_bind (opt_bind (field "group_url" j) v_url) (fun u =>
        opt_bind (opt_bind (field "max_age" j) v_int) (fun a =>
        Some (Build u a)))
      else None
  | _ => None
  end).
End SimpleVkInputData.

Module ParsePostsVkInputData.
Record t : Type := Build {
  group_url : string;
  posted_up_to : Z;
  max_age : Z
}.

(** [parser_type: Literal[ParserTypes.VK_DOWNLOAD_AND_PARSED_POSTS]] *)
Definition parser_type (_ : t) : ParserTypes := VK_DOWNLOAD_AND_PARSED_POSTS.

Definition model_validate `{FieldValidators} (j : json) : option t :=
  opt_bind (field "parser_type" j) (fun tag =>
  match tag with
  | JStr s =>
      if String.eqb s (ParserTypes_value VK_DOWNLOAD_AND_PARSED_POSTS) then
        opt_bind (opt_bind (field "group_url" j) v_url) (fun u =>
        opt_bind (opt_bind (field "posted_up_to" j) v_datetime) (fun p =>
        opt_bind (opt_bind (field "max_age" j) v_int) (fun a =>
        Some (Build u p a))))
      else None
  | _ => None
  end).
End ParsePostsVkInputData.

(** [ParsePostsVkInputData | SimpleVkInputData], told apart by the
    discriminator field [parser_type]. *)
Module InputData.
Inductive t : Type :=
| ParsePosts (d : ParsePostsVkInputData.t)
| Simple (d : SimpleVkInputData.t).

Definition parser_type (i : t) : ParserTypes :=
  match i with
  | ParsePosts d => ParsePostsVkInputData.parser_type d
  | Simple d => SimpleVkInputData.parser_type d
  end.

(** The tagged union reads the tag first and hands the payload to the
    one variant that carries it; an absent or unknown tag is rejected. *)
Definition model_validate `{FieldValidators} (j : json) : option t :=
  match field "parser_type" j with
  | Some (JStr s) =>
      if String.eqb s (ParserTypes_value VK_DOWNLOAD_AND_PARSED_POSTS) then
        option_map ParsePosts (ParsePostsVkInputData.model_validate j)
      else if String.eqb s (ParserTypes_value VK_SIMPLE_DOWNLOAD) then
        option_map Simple (SimpleVkInputData.model_validate j)
      else None
  | _ => None
  end.
End InputData.

Module UserStat.
Record t : Type := Build {
  vk_id : Z;
  count : Z
}.

Definition model_validate `{FieldValidators} (j : json) : option t :=
  opt_bind (opt_bind (field "vk_id" j) v_int) (fun i =>
  opt_bind (opt_bind (field "count" j) v_int) (fun c =>
  Some (Build i c))).

Definition model_dump (u : t) : json :=
  JObj [("vk_id", JNum (vk_id u)); ("count", JNum (count u))].
End UserStat.

Module ResultData.
Record t : Type := Build {
  message : string;
  user_stat : list UserStat.t
}.

Definition model_validate `{FieldValidators} (j : json) : option t :=
  opt_bind (opt_bind (field "message" j) v_str) (fun m =>
  opt_bind (field "user_stat" j) (fun us =>
  match us with
  | JArr l => option_map (Build m) (opt_all UserStat.model_validate l)
  | _ => None
  end)).

Definition model_dump (r : t) : json :=
  JObj [("message", JStr (message r));
        ("user_stat", JArr (map UserStat.model_dump (user_stat r)))].
End ResultData.

(** ** The table *)

(** Modelled from the spec: the table declaration
    [vk_parser/db/models/parser_request.py] is not part of the sources at
    hand; the columns are those of section 3. *)
Module ParserRequestDb.
Record t : Type := Build {
  id : Z;
  created_at : Z;
  updated_at : Z;
  status : RequestStatus;
  input_data : json;
  result_data : option json;
  finished_at : option Z;
  error_message : option string
}.
End ParserRequestDb.

Definition Row : Type := ParserRequestDb.t.

Module DetailParserRequest.
Record t : Type := Build {
  id : Z;
  created_at : Z;
  updated_at : Z;
  status : RequestStatus;
  input_data : InputData.t;
  result_data : option ResultData.t;
  finished_at : option Z;
  error_message : option string
}.

Definition parser_type (self : t) : ParserTypes :=
  InputData.parser_type (input_data self).

(** [result_data: ResultData | None].  A column that is SQL [NULL] and a
    column that holds JSON [null] both load as Python [None], which the
    optional field takes as it is; anything else must validate as a
    [ResultData]. *)
Definition validate_result_data `{FieldValidators} (column : option json)
  : option (option ResultData.t) :=
  match column with
  | None => Some None
  | Some JNull => Some None
  | Some j => option_map Some (ResultData.model_validate j)
  end.

(** [model_validate] with [from_attributes=True]: the typed columns are
    taken as they are, the two JSON columns are validated. *)
Definition model_validate `{FieldValidators} (obj : Row) : option t :=
  opt_bind (InputData.model_validate (ParserRequestDb.input_data obj)) (fun i =>
  opt_bind (validate_result_data (ParserRequestDb.result_data obj)) (fun r =>
  Some (Build (ParserRequestDb.id obj)
              (ParserRequestDb.created_at obj)
              (ParserRequestDb.updated_at obj)
              (ParserRequestDb.status obj)
              i r
              (ParserRequestDb.finished_at obj)
              (ParserRequestDb.error_message obj)))).
End DetailParserRequest.

Module ParserRequest.
Record t : Type := Build {
  id : Z;
  created_at : Z;
  updated_at : Z;
  status : RequestStatus;
  finished_at : option Z;
  error_message : option string
}.

Definition model_validate (obj : Row) : option t :=
  Some (Build (ParserRequestDb.id obj)
              (ParserRequestDb.created_at obj)
              (ParserRequestDb.updated_at obj)
              (ParserRequestDb.status obj)
              (ParserRequestDb.finished_at obj)
              (ParserRequestDb.error_message obj)).
End ParserRequest.

(** ** The database engine *)

(** What the code leaves to the relational engine: the text the engine
    renders a JSON value that is not a string as ([.astext]), the order in
    which a query without [ORDER BY] yields the rows of a table, and the
    order in which [GROUP BY status] yields its groups.  Between writes the
    row order is a function of the table contents. *)
Class Engine : Type := {
  render : json -> string;
  scan : list Row -> list Row;
  scan_perm : forall t : list Row, Permutation (scan t) t;
  group_order : list RequestStatus;
  group_order_NoDup : NoDup group_order;
  group_order_all : forall s : RequestStatus, In s group_order
}.

(** [input_data["parser_type"].astext]: SQL [NULL] when the key is absent
    or holds JSON [null]. *)
Definition astext `{Engine} (k : string) (j : json) : option string :=
  match field k j with
  | None => None
  | Some JNull => None
  | Some (JStr s) => Some s
  | Some v => Some (render v)
  end.

(** ** Worlds, exceptions and the monad of store operations *)

(** The exceptions the store can meet: [DBAPIError], under which SQLAlchemy
    reports every error of the database driver; [NoResultFound] and
    [MultipleResultsFound], raised by [one()]; and the [ValidationError] of
    a model. *)
Inductive exn : Type :=
| DBAPIError
| NoResultFound
| MultipleResultsFound
| ValidationError.

Definition exn_eqb (a b : exn) : bool :=
  match a, b with
  | DBAPIError, DBAPIError => true
  | NoResultFound, NoResultFound => true
  | MultipleResultsFound, MultipleResultsFound => true
  | ValidationError, ValidationError => true
  | _, _ => false
  end.

Inductive outcome (A : Type) : Type :=
| Return (a : A)
| Raise (e : exn).

Arguments Return {A} a.
Arguments Raise {A} e.

(** The committed table, the id sequence, the server clock, the driver
    failures still to come (one flag per round trip to the server, [true]
    for a failing one; an exhausted script fails no more) and the warnings
    logged so far. *)
Record World : Type := mkWorld {
  table : list Row;
  next_id : Z;
  clock : Z;
  faults : list bool;
  log : list string
}.

Definition set_table (t : list Row) (w : World) : World :=
  mkWorld t (next_id w) (clock w) (faults w) (log w).

Definition set_next_id (n : Z) (w : World) : World :=
  mkWorld (table w) n (clock w) (faults w) (log w).

Definition set_faults (f : list bool) (w : World) : World :=
  mkWorld (table w) (next_id w) (clock w) f (log w).

Definition set_log (l : list string) (w : World) : World :=
  mkWorld (table w) (next_id w) (clock w) (faults w) l.

(** An [AsyncSession]: the world it talks to and the working copy of the
    table inside its transaction. *)
Record Session : Type := mkSession {
  db : World;
  txn : list Row
}.

Definition M (S A : Type) : Type := S -> S * outcome A.

Definition ret {S A : Type} (a : A) : M S A := fun s => (s, Return a).

Definition raise {S A : Type} (e : exn) : M S A := fun s => (s, Raise e).

Definition bind {S A B : Type} (m : M S A) (k : A -> M S B) : M S B :=
  fun s =>
    match m s with
    | (s', Return a) => k a s'
    | (s', Raise e) => (s', Raise e)
    end.

(** [try: body except cls: handler] *)
Definition try_except {S A : Type} (body : M S A) (cls : exn) (handler : M S A)
  : M S A :=
  fun s =>
    match body s with
    | (s', Return a) => (s', Return a)
    | (s', Raise e) => if exn_eqb e cls then handler s' else (s', Raise e)
    end.

Declare Scope monad_scope.
Delimit Scope monad_scope with monad.
Notation "x <- m ;; k" := (bind m (fun x => k))
  (at level 61, m at next level, right associativity) : monad_scope.
Notation "m ;; k" := (bind m (fun _ => k))
  (at level 61, right associativity) : monad_scope.
Local Open Scope monad_scope.

Definition of_option {S A : Type} (e : exn) (o : option A) : M S A :=
  match o with
  | Some a => ret a
  | None => raise e
  end.

(** [ScalarResult.one()] and [ScalarResult.first()] *)
Definition one {S A : Type} (result : list A) : M S A :=
  match result with
  | [] => raise NoResultFound
  | [a] => ret a
  | _ :: _ :: _ => raise MultipleResultsFound
  end.

Definition first {A : Type} (result : list A) : option A :=
  match result with
  | [] => None
  | a :: _ => Some a
  end.

(** [inject_session] of [db/utils.py]: the wrapped method runs inside
    [async with session_factory() as session]; leaving the block drops
    whatever the session did not commit. *)
Definition inject_session {A : Type} (func : M Session A) : M World A :=
  fun w =>
    match func (mkSession w (table w)) with
    | (s, r) => (db s, r)
    end.

Definition log_warning (msg : string) : M Session unit :=
  fun s => (mkSession (set_log (log (db s) ++ [msg]) (db s)) (txn s), Return tt).

(** One round trip to the server: it fails with a [DBAPIError] when the
    script says so. *)
Definition round_trip : M Session unit :=
  fun s =>
    match faults (db s) with
    | [] => (s, Return tt)
    | false :: fs => (mkSession (set_faults fs (db s)) (txn s), Return tt)
    | true :: fs => (mkSession (set_faults fs (db s)) (txn s), Raise DBAPIError)
    end.

Definition commit : M Session unit :=
  round_trip ;;
  fun s => (mkSession (set_table (txn s) (db s)) (txn s), Return tt).

(** ** Statements *)

(** The [SET] list of an [UPDATE]: [None] leaves a column alone. *)
Record Values : Type := mkValues {
  set_status : option RequestStatus;
  set_finished_at : option Z;
  set_error_message : option string;
  set_result_data : option json
}.

Definition or_keep {A : Type} (new : option A) (old : A) : A :=
  match new with
  | Some a => a
  | None => old
  end.

Definition or_keep_opt {A : Type} (new : option A) (old : option A) : option A :=
  match new with
  | Some a => Some a
  | None => old
  end.

(** Modelled from the spec: [updated_at] is "managed by storage on every
    mutation" (section 3), so an update stamps it with the server clock. *)
Definition assign (now : Z) (v : Values) (r : Row) : Row :=
  ParserRequestDb.Build
    (ParserRequestDb.id r)
    (ParserRequestDb.created_at r)
    now
    (or_keep (set_status v) (ParserRequestDb.status r))
    (ParserRequestDb.input_data r)
    (or_keep_opt (set_result_data v) (ParserRequestDb.result_data r))
    (or_keep_opt (set_finished_at v) (ParserRequestDb.finished_at r))
    (or_keep_opt (set_error_message v) (ParserRequestDb.error_message r)).

Definition has_id (id_ : Z) (r : Row) : bool := ParserRequestDb.id r =? id_.

Definition update_where_id (id_ : Z) (now : Z) (v : Values) (t : list Row)
  : list Row :=
  map (fun r => if has_id id_ r then assign now v r else r) t.

(** Modelled from the spec: the column defaults of the absent table
    declaration.  A new row gets the next id of the sequence, both time
    stamps from the server clock, the "initial non-terminal state"
    [PENDING], and no result, finish time or error message (section 3). *)
Definition new_row (id_ now : Z) (input_data : json) : Row :=
  ParserRequestDb.Build id_ now now PENDING input_data None None None.

(** [insert(ParserRequestDb).values(input_data=...).returning(ParserRequestDb)] *)
Definition insert_returning (input_data : json) : M Session (list Row) :=
  round_trip ;;
  fun s =>
    let w := db s in
    let r := new_row (next_id w) (clock w) input_data in
    (mkSession (set_next_id (next_id w + 1) w) (txn s ++ [r]), Return [r]).

(** [update(ParserRequestDb).where(ParserRequestDb.id == id_).values(...)
    .returning(ParserRequestDb)] *)
Definition update_returning (id_ : Z) (v : Values) : M Session (list Row) :=
  round_trip ;;
  fun s =>
    let t' := update_where_id id_ (clock (db s)) v (txn s) in
    (mkSession (db s) t', Return (filter (has_id id_) t')).

(** The same statement without [RETURNING], run by [session.execute]. *)
Definition update_execute (id_ : Z) (v : Values) : M Session unit :=
  update_returning id_ v ;; ret tt.

(** A [SELECT] over the table. *)
Record Query : Type := mkQuery {
  q_filter_by_id : option Z;
  q_order_by_created_at_desc : bool;
  q_offset : option Z;
  q_limit : option Z
}.

Definition select_ParserRequestDb : Query := mkQuery None false None None.

Definition filter_by_id (id_ : Z) (q : Query) : Query :=
  mkQuery (Some id_) (q_order_by_created_at_desc q) (q_offset q) (q_limit q).

Definition order_by_created_at_desc (q : Query) : Query :=
  mkQuery (q_filter_by_id q) true (q_offset q) (q_limit q).

Definition offset (n : Z) (q : Query) : Query :=
  mkQuery (q_filter_by_id q) (q_order_by_created_at_desc q) (Some n) (q_limit q).

Definition limit (n : Z) (q : Query) : Query :=
  mkQuery (q_filter_by_id q) (q_order_by_created_at_desc q) (q_offset q) (Some n).

Fixpoint insert_desc (r : Row) (l : list Row) : list Row :=
  match l with
  | [] => [r]
  | x :: rest =>
      if ParserRequestDb.created_at x <=? ParserRequestDb.created_at r
      then r :: l
      else x :: insert_desc r rest
  end.

(** [ORDER BY created_at DESC] *)
Definition sort_desc (l : list Row) : list Row := fold_right insert_desc [] l.

(** The rows a query selects before [OFFSET] and [LIMIT] cut them. *)
Definition base_rows `{Engine} (q : Query) (t : list Row) : list Row :=
  let rows := scan t in
  let rows :=
    match q_filter_by_id q with
    | Some id_ => filter (has_id id_) rows
    | None => rows
    end in
  if q_order_by_created_at_desc q then sort_desc rows else rows.

(** The engine refuses a negative [OFFSET] or [LIMIT]. *)
Definition window (off lim : option Z) (rows : list Row) : option (list Row) :=
  match off with
  | Some o =>
      if o <? 0 then None
      else
        match lim with
        | Some l =>
            if l <? 0 then None
            else Some (firstn (Z.to_nat l) (skipn (Z.to_nat o) rows))
        | None => Some (skipn (Z.to_nat o) rows)
        end
  | None =>
      match lim with
      | Some l => if l <? 0 then None else Some (firstn (Z.to_nat l) rows)
      | None => Some rows
      end
  end.

Definition run_query `{Engine} (q : Query) (t : list Row) : option (list Row) :=
  window (q_offset q) (q_limit q) (base_rows q t).

(** [session.scalars(query)] for a [SELECT] *)
Definition scalars `{Engine} (q : Query) : M Session (list Row) :=
  round_trip ;;
  fun s => of_option DBAPIError (run_query q (txn s)) s.

(** Counting the rows of a query, its [OFFSET] and [LIMIT] left out. *)
Definition scalar_count `{Engine} (q : Query) : M Session Z :=
  round_trip ;;
  fun s => (s, Return (Z.of_nat (List.length (base_rows q (txn s))))).

(** [ParserRequestDb.input_data["parser_type"].astext == parser_type] *)
Definition is_of_type `{Engine} (pt : ParserTypes) (r : Row) : bool :=
  match astext "parser_type" (ParserRequestDb.input_data r) with
  | Some s => String.eqb s (ParserTypes_value pt)
  | None => false
  end.

Definition has_status (st : RequestStatus) (r : Row) : bool :=
  RequestStatus_eqb (ParserRequestDb.status r) st.

(** [select(status, count()).group_by(status).filter(...)]: one group for
    each status that occurs among the filtered rows. *)
Definition group_by_status `{Engine} (rows : list Row) : list (RequestStatus * Z) :=
  flat_map
    (fun st =>
       let n := Z.of_nat (List.length (filter (has_status st) rows)) in
       if 0 <? n then [(st, n)] else [])
    group_order.

Definition execute_stat `{Engine} (pt : ParserTypes)
  : M Session (list (RequestStatus * Z)) :=
  round_trip ;;
  fun s => (s, Return (group_by_status (filter (is_of_type pt) (txn s)))).

(** ** Pagination *)

(** Modelled from the spec: [vk_parser/generals/models/pagination.py] is
    not part of the sources at hand; section 4.2 gives the shape
    [{items, total_count, page, page_size}]. *)
Record PaginationResponse (A : Type) : Type := mkPage {
  items : list A;
  total : Z;
  page : Z;
  page_size : Z
}.

Section Storage.
Context {V : FieldValidators} {E : Engine}.

Definition validated {S A : Type} (model_type : Row -> option A) (obj : Row)
  : M S A :=
  of_option ValidationError (model_type obj).

Fixpoint validated_all {S A : Type} (model_type : Row -> option A)
    (rows : list Row) : M S (list A) :=
  match rows with
  | [] => ret []
  | obj :: rest =>
      a <- validated model_type obj ;;
      l <- validated_all model_type rest ;;
      ret (a :: l)
  end.

(** Modelled from the spec: [PaginationMixin._paginate] of
    [vk_parser/storages/base.py] is not part of the sources at hand.
    Section 4.2: a count query over the same predicate without offset and
    limit; the items by offset [(page - 1) * page_size] and limit
    [page_size] under the ordering of the base query; each raw row mapped
    to the requested shape by its validating constructor; read-only. *)
Definition _paginate {A : Type} (query : Query) (page page_size : Z)
    (model_type : Row -> option A) : M World (PaginationResponse A) :=
  inject_session (
    total <- scalar_count query ;;
    rows <- scalars (limit page_size (offset ((page - 1) * page_size) query)) ;;
    items <- validated_all model_type rows ;;
    ret (mkPage items total page page_size)).

(** ** [ParserRequestStorage] *)

Definition get_pagination (page page_size : Z)
  : M World (PaginationResponse ParserRequest.t) :=
  let query := select_ParserRequestDb in
  _paginate query page page_size ParserRequest.model_validate.

Definition admin_pagination (page page_size : Z)
  : M World (PaginationResponse DetailParserRequest.t) :=
  let query := order_by_created_at_desc select_ParserRequestDb in
  _paginate query page page_size DetailParserRequest.model_validate.

Definition get_detail (id_ : Z) : M World (option DetailParserRequest.t) :=
  inject_session (
    let query := filter_by_id id_ select_ParserRequestDb in
    result <- scalars query ;;
    match first result with
    | Some obj =>
        d <- validated DetailParserRequest.model_validate obj ;;
        ret (Some d)
    | None => ret None
    end).

(** The [try] block ends in [Some result]; the handler's [return None]
    is the [None] that skips the final [return]. *)
Definition create (input_data : json) : M World (option DetailParserRequest.t) :=
  inject_session (
    let query := insert_returning input_data in
    r <- try_except
           (result <- query ;;
            commit ;;
            ret (Some result))
           DBAPIError
           (log_warning "Error in creating parser request: %s" ;;
            ret None) ;;
    match r with
    | None => ret None
    | Some result =>
        obj <- one result ;;
        d <- validated DetailParserRequest.model_validate obj ;;
        ret (Some d)
    end).

Definition update_status (id_ : Z) (status : RequestStatus)
  : M World (option DetailParserRequest.t) :=
  inject_session (
    let query := update_returning id_ (mkValues (Some status) None None None) in
    try_except
      (result <- query ;;
       commit ;;
       obj <- one result ;;
       d <- validated DetailParserRequest.model_validate obj ;;
       ret (Some d))
      DBAPIError
      (log_warning "Error updating: %s" ;;
       ret None)).

Definition save_error (id_ : Z) (finished_at : Z) (error_message : string)
  : M World unit :=
  inject_session (
    let query :=
      update_execute id_
        (mkValues (Some FAILED) (Some finished_at) (Some error_message) None) in
    try_except
      (query ;;
       commit)
      DBAPIError
      (log_warning "Error save error")).

Definition save_empty_result (id_ : Z) (finished_at : Z) (message : string)
  : M World unit :=
  inject_session (
    let query :=
      update_execute id_
        (mkValues (Some EMPTY) (Some finished_at) None
           (Some (JObj [("message", JStr message); ("user_stat", JArr [])]))) in
    try_except
      (query ;;
       commit)
      DBAPIError
      (log_warning "Error save error")).

(** The module imports the result model under the name [Result]; the
    models at hand declare it as [ResultData]. *)
Definition save_successful_result (id_ : Z) (result : ResultData.t)
    (finished_at : Z) : M World unit :=
  inject_session (
    let query :=
      update_execute id_
        (mkValues (Some SUCCESSFUL) (Some finished_at) None
           (Some (ResultData.model_dump result))) in
    try_except
      (query ;;
       commit)
      DBAPIError
      (log_warning "Error save error")).

Definition stat_by_type (parser_type : ParserTypes)
  : M World (ParserTypes * list (RequestStatus * Z)) :=
  inject_session (
    res <- execute_stat parser_type ;;
    ret (parser_type, res)).

(** [asyncio.gather]: every task runs to its end, the results keep the
    order of the tasks, and an exception of a task reaches the caller. *)
Fixpoint gather {S A : Type} (tasks : list (M S A)) : M S (list A) :=
  match tasks with
  | [] => ret []
  | task :: rest =>
      fun s =>
        match task s with
        | (s', Return a) =>
            match gather rest s' with
            | (s'', Return l) => (s'', Return (a :: l))
            | (s'', Raise e) => (s'', Raise e)
            end
        | (s', Raise e) => (fst (gather rest s'), Raise e)
        end
  end.

Definition stat : M World (list (ParserTypes * RequestStatus * Z)) :=
  let tasks := map stat_by_type ParserTypes_members in
  stat <- gather tasks ;;
  ret (flat_map
         (fun '(pt, res) => map (fun '(req_status, count) => (pt, req_status, count)) res)
         stat).

End Storage.

(** ** Concrete collaborators, for running the model *)

Definition strict_validators : FieldValidators :=
  {| v_int := fun j => match j with JNum z => Some z | _ => None end;
     v_str := fun j => match j with JStr s => Some s | _ => None end;
     v_url := fun j => match j with JStr s => Some s | _ => None end;
     v_datetime := fun j => match j with JNum z => Some z | _ => None end |}.

(** An engine that yields rows in insertion order and groups in the
    declaration order of the statuses. *)
Definition heap_engine : Engine :=
  {| render := fun _ => "";
     scan := fun t => t;
     scan_perm := fun t => Permutation_refl t;
     group_order := RequestStatus_members;
     group_order_NoDup :=
       ltac:(unfold RequestStatus_members; repeat constructor; simpl; intuition discriminate);
     group_order_all :=
       ltac:(intros []; simpl; auto 6) |}.

(** ** Vocabulary of the statements *)

(** The next [n] round trips to the server all succeed. *)
Definition healthy (n : nat) (w : World) : bool :=
  forallb negb (firstn n (faults w)).

(** Some row of the committed table carries the id. *)
Definition known (id_ : Z) (w : World) : bool :=
  existsb (has_id id_) (table w).

(** The world an operation leaves behind and what it hands to its caller. *)
Definition after {A : Type} (m : M World A) (w : World) : World := fst (m w).

Definition result {A : Type} (m : M World A) (w : World) : outcome A := snd (m w).

(** The world once [n] round trips are used up, the table replaced by [t]
    and [msgs] logged. *)
Definition settled (n : nat) (t : list Row) (msgs : list string) (w : World)
  : World :=
  mkWorld t (next_id w) (clock w) (skipn n (faults w)) (log w ++ msgs).

(** ** Sample data *)

Definition simple_payload : json :=
  JObj [("parser_type", JStr "VK_SIMPLE_DOWNLOAD");
        ("group_url", JStr "https://vk.com/example");
        ("max_age", JNum 10)].

Definition posts_payload : json :=
  JObj [("parser_type", JStr "VK_DOWNLOAD_AND_PARSED_POSTS");
        ("group_url", JStr "https://vk.com/example");
        ("posted_up_to", JNum 50);
        ("max_age", JNum 10)].

Definition empty_world : World := mkWorld [] 1 100 [] [].

(** One pending request with id 1. *)
Definition one_request : World :=
  mkWorld [new_row 1 100 simple_payload] 2 105 [] [].

(** The same world with a driver that fails the next round trip. *)
Definition one_request_failing : World :=
  mkWorld [new_row 1 100 simple_payload] 2 105 [true] [].

Definition ok_result : ResultData.t :=
  ResultData.Build "ok" [UserStat.Build 1 5].

(** The discriminator of the row's input is the parser type [pt]: the input
    is a mapping whose [parser_type] is the string value of [pt]. *)
Definition has_discriminator (pt : ParserTypes) (r : Row) : bool :=
  match field "parser_type" (ParserRequestDb.input_data r) with
  | Some (JStr s) => String.eqb s (ParserTypes_value pt)
  | _ => false
  end.

(** How many rows of [t] have the discriminator [pt] and the status [st]. *)
Definition rows_with (pt : ParserTypes) (st : RequestStatus) (t : list Row) : Z :=
  Z.of_nat (List.length (filter (has_status st) (filter (has_discriminator pt) t))).

(** The text the engine renders a JSON value that is not a string as (a
    number, [true], [false], an array, an object) is never the value of a
    parser type. *)
Definition renders_no_type (E : Engine) : Prop :=
  forall (v : json) (pt : ParserTypes),
    (forall s : string, v <> JStr s) -> render v <> ParserTypes_value pt.

Definition sumZ (l : list Z) : Z := fold_right Z.add 0 l.

(** The counts that the statistics report for one parser type. *)
Definition counts_of_type (pt : ParserTypes)
    (out : list (ParserTypes * RequestStatus * Z)) : list Z :=
  map (fun '(_, _, n) => n)
    (filter (fun '(p, _, _) => ParserTypes_eqb p pt) out).

(** The groups of a [GROUP BY], for any way [cnt] of counting a status: the
    statuses that occur, each with its count, in the given order. *)
Definition groups (cnt : RequestStatus -> Z) (order : list RequestStatus)
  : list (RequestStatus * Z) :=
  flat_map (fun st => if 0 <? cnt st then [(st, cnt st)] else []) order.

Definition stat_key (x : ParserTypes * RequestStatus * Z)
  : ParserTypes * RequestStatus :=
  let '(pt, st, _) := x in (pt, st).

Definition tagged (pt : ParserTypes) (res : list (RequestStatus * Z))
  : list (ParserTypes * RequestStatus * Z) :=
  map (fun '(st, n) => (pt, st, n)) res.

(** Three requests: two simple downloads, one of them finished empty, and
    one download-and-parse request. *)
Definition three_requests : World :=
  mkWorld
    [new_row 1 100 simple_payload;
     ParserRequestDb.Build 2 110 130 EMPTY simple_payload
       (Some (JObj [("message", JStr "no posts"); ("user_stat", JArr [])]))
       (Some 130) None;
     new_row 3 120 posts_payload]
    4 140 [] [].

(** An engine that yields rows and groups the other way round. *)
Definition reverse_engine : Engine :=
  {| render := fun _ => "";
     scan := fun t => rev t;
     scan_perm := fun t => Permutation_sym (Permutation_rev t);
     group_order := rev RequestStatus_members;
     group_order_NoDup :=
       ltac:(unfold RequestStatus_members; simpl;
             repeat constructor; simpl; intuition discriminate);
     group_order_all :=
       ltac:(intros []; simpl; auto 6) |}.

(** The summary projection of a row, the value [ParserRequest.model_validate]
    builds. *)
Definition summary (obj : Row) : ParserRequest.t :=
  ParserRequest.Build
    (ParserRequestDb.id obj) (ParserRequestDb.created_at obj)
    (ParserRequestDb.updated_at obj) (ParserRequestDb.status obj)
    (ParserRequestDb.finished_at obj) (ParserRequestDb.error_message obj).

(** The items of the page a listing returns (none when it raises). *)
Definition page_items {A : Type} (m : M World (PaginationResponse A)) (w : World)
  : list A :=
  match result m w with
  | Return pg => items pg
  | Raise _ => []
  end.

(** The page numbers [1 .. n]. *)
Definition page_numbers (n : Z) : list Z :=
  map (fun i => Z.of_nat i + 1) (seq 0 (Z.to_nat n)).

(** [ceil (N / k)] for a positive [k]. *)
Definition page_count (N k : Z) : Z := (N + k - 1) / k.

(** Each value is at most the one before it. *)
Definition non_increasing (l : list Z) : Prop := Sorted (fun a b => b <= a) l.

(** Row [a] was created no earlier than row [b]. *)
Definition newer_or_same (a b : Row) : Prop :=
  ParserRequestDb.created_at b <= ParserRequestDb.created_at a.

(** Five requests created at different times, not stored in time order. *)
Definition five_requests : World :=
  mkWorld
    [new_row 1 100 simple_payload;
     new_row 2 300 posts_payload;
     new_row 3 200 simple_payload;
     new_row 4 500 simple_payload;
     new_row 5 400 posts_payload]
    6 600 [] [].

(** ** Sequences of store operations *)

(** The writing operations of the store. *)
Inductive Op : Type :=
| OpCreate (input_data : json)
| OpUpdateStatus (id_ : Z) (status : RequestStatus)
| OpSaveError (id_ finished_at : Z) (error_message : string)
| OpSaveEmptyResult (id_ finished_at : Z) (message : string)
| OpSaveSuccessfulResult (id_ : Z) (res : ResultData.t) (finished_at : Z).

(** A call of an operation, with what the environment decides before it
    runs: the time on the server clock and how the driver will behave. *)
Record Call : Type := mkCall {
  call_op : Op;
  call_now : Z;
  call_faults : list bool
}.

Definition perform {V : FieldValidators} (op : Op) (w : World) : World :=
  match op with
  | OpCreate input_data => after (create input_data) w
  | OpUpdateStatus id_ status => after (update_status id_ status) w
  | OpSaveError id_ finished_at error_message =>
      after (save_error id_ finished_at error_message) w
  | OpSaveEmptyResult id_ finished_at message =>
      after (save_empty_result id_ finished_at message) w
  | OpSaveSuccessfulResult id_ res finished_at =>
      after (save_successful_result id_ res finished_at) w
  end.

Definition run_call {V : FieldValidators} (w : World) (c : Call) : World :=
  perform (call_op c)
    (mkWorld (table w) (next_id w) (call_now c) (call_faults c) (log w)).

Definition run {V : FieldValidators} (calls : list Call) (w : World) : World :=
  fold_left run_call calls w.

(** The invariant of section 3 on one row: [finished_at] is null exactly
    for [PENDING] and [PROCESSING]; [SUCCESSFUL] and [EMPTY] come with a
    result and without an error message; [FAILED] comes with an error
    message and without a result. *)
Definition row_consistent (r : Row) : Prop :=
  (ParserRequestDb.finished_at r = None <->
   ParserRequestDb.status r = PENDING \/ ParserRequestDb.status r = PROCESSING) /\
  (ParserRequestDb.status r = SUCCESSFUL \/ ParserRequestDb.status r = EMPTY ->
   ParserRequestDb.result_data r <> None /\ ParserRequestDb.error_message r = None) /\
  (ParserRequestDb.status r = FAILED ->
   ParserRequestDb.error_message r <> None /\ ParserRequestDb.result_data r = None).

Definition non_terminal (st : RequestStatus) : bool :=
  match st with
  | PENDING | PROCESSING => true
  | SUCCESSFUL | EMPTY | FAILED => false
  end.

(** Every row of the id, if there is one, is still [PENDING] or
    [PROCESSING]. *)
Definition still_open (id_ : Z) (w : World) : bool :=
  forallb
    (fun r => if has_id id_ r then non_terminal (ParserRequestDb.status r) else true)
    (table w).

(** The lifecycle of section 3: [update_status] moves an open request to
    [PENDING] or [PROCESSING]; a terminal save closes an open request. *)
Definition follows_lifecycle (op : Op) (w : World) : bool :=
  match op with
  | OpCreate _ => true
  | OpUpdateStatus id_ status => non_terminal status && still_open id_ w
  | OpSaveError id_ _ _ => still_open id_ w
  | OpSaveEmptyResult id_ _ _ => still_open id_ w
  | OpSaveSuccessfulResult id_ _ _ => still_open id_ w
  end.

Fixpoint lifecycle_respected {V : FieldValidators} (calls : list Call) (w : World)
  : bool :=
  match calls with
  | [] => true
  | c :: rest =>
      follows_lifecycle (call_op c) w && lifecycle_respected rest (run_call w c)
  end.

(** What holds of a row along the lifecycle: an open request has no finish
    time, result or error message yet. *)
Definition row_in_lifecycle (r : Row) : Prop :=
  match ParserRequestDb.status r with
  | PENDING | PROCESSING =>
      ParserRequestDb.finished_at r = None /\
      ParserRequestDb.result_data r = None /\
      ParserRequestDb.error_message r = None
  | SUCCESSFUL | EMPTY =>
      ParserRequestDb.finished_at r <> None /\
      ParserRequestDb.result_data r <> None /\
      ParserRequestDb.error_message r = None
  | FAILED =>
      ParserRequestDb.finished_at r <> None /\
      ParserRequestDb.error_message r <> None /\
      ParserRequestDb.result_data r = None
  end.

(** A request is created, marked successful by [update_status] alone. *)
Definition premature_success : list Call :=
  [mkCall (OpCreate simple_payload) 100 [];
   mkCall (OpUpdateStatus 1 SUCCESSFUL) 110 []].

(** Two requests run through the lifecycle: one succeeds, one fails. *)
Definition two_lifecycles : list Call :=
  [mkCall (OpCreate simple_payload) 100 [];
   mkCall (OpUpdateStatus 1 PROCESSING) 110 [];
   mkCall (OpCreate posts_payload) 120 [];
   mkCall (OpSaveSuccessfulResult 1 ok_result 130) 130 [];
   mkCall (OpUpdateStatus 2 PROCESSING) 140 [false; true];
   mkCall (OpSaveError 2 150 "boom") 150 []].


(** ** More vocabulary *)

(** Row [r'] is row [r] as far as what identifies a request goes: its id,
    its creation time and its input. *)
Definition same_identity (r r' : Row) : Prop :=
  ParserRequestDb.id r' = ParserRequestDb.id r /\
  ParserRequestDb.created_at r' = ParserRequestDb.created_at r /\
  ParserRequestDb.input_data r' = ParserRequestDb.input_data r.

(** No id occurs twice, and every id was handed out by the sequence. *)
Definition ids_fresh (w : World) : Prop :=
  NoDup (map ParserRequestDb.id (table w)) /\
  Forall (fun r => ParserRequestDb.id r < next_id w) (table w).

(** The row carries the discriminator of one of the parser types. *)
Definition has_known_type `{Engine} (r : Row) : bool :=
  existsb (fun pt => is_of_type pt r) ParserTypes_members.

(** The warning an operation logs when the driver fails. *)
Definition failure_message (op : Op) : string :=
  match op with
  | OpCreate _ => "Error in creating parser request: %s"
  | OpUpdateStatus _ _ => "Error updating: %s"
  | OpSaveError _ _ _ => "Error save error"
  | OpSaveEmptyResult _ _ _ => "Error save error"
  | OpSaveSuccessfulResult _ _ _ => "Error save error"
  end.

(** The validators accept a JSON number as an [int] and a JSON string as a
    [str], unchanged. *)
Definition plain_scalars (V : FieldValidators) : Prop :=
  (forall z : Z, v_int (JNum z) = Some z) /\
  (forall s : string, v_str (JStr s) = Some s).

(** A table with one finished request. *)
Definition one_finished : World :=
  mkWorld
    [ParserRequestDb.Build 1 100 130 SUCCESSFUL simple_payload
       (Some (ResultData.model_dump ok_result)) (Some 130) None]
    2 140 [] [].

(** A payload without a discriminator. *)
Definition untagged_payload : json :=
  JObj [("group_url", JStr "https://vk.com/example"); ("max_age", JNum 10)].

(** ** Request handlers: [vk_parser/handlers/base.py] *)

(** What [await self.request.json(loads=orjson.loads)] does: it yields the
    decoded body; or [orjson.loads] raises [orjson.JSONDecodeError] for a
    body that is not JSON; or reading the body raises some other exception
    (a [UnicodeDecodeError] for a body that is not UTF-8 text, say), named
    here by [exc].  The body is read once and kept, so every call does the
    same. *)
Inductive Body : Type :=
| BodyJson (data : json)
| BodyJSONDecodeError
| BodyRaises (exc : string).

Record Request : Type := mkRequest {
  request_json : Body
}.

(** A model class as [_parse_json] uses it: [model_validate] yields the
    model or a [ValidationError], kept here as the text of its [json()]. *)
Definition Schema (A : Type) : Type := json -> A + string.

(** [ModelType | Exception], the value of [_parse_schema]. *)
Inductive Parsed (A : Type) : Type :=
| ParsedModel (m : A)
| ParsedValidationError (detail : string)
| ParsedJSONDecodeError.

Arguments ParsedModel {A} m.
Arguments ParsedValidationError {A} detail.
Arguments ParsedJSONDecodeError {A}.

(** What a handler raises: the [HTTPBadRequest] it builds, or an exception
    of the request that it does not catch. *)
Inductive Raised : Type :=
| HTTPBadRequest (reason : option string) (text : option string)
| Uncaught (exc : string).

(** [except (ValidationError, orjson.JSONDecodeError) as e: return e]; any
    other exception leaves the function ([inr]). *)
Definition _parse_schema {A : Type} (request : Request) (schema : Schema A)
  : Parsed A + string :=
  match request_json request with
  | BodyRaises exc => inr exc
  | BodyJSONDecodeError => inl ParsedJSONDecodeError
  | BodyJson data =>
      match schema data with
      | inl m => inl (ParsedModel m)
      | inr e => inl (ParsedValidationError e)
      end
  end.

(** The [for] loop of [_parse_json] with its variable [result], and the
    two statements after it. *)
Fixpoint _parse_json_from {A : Type} (request : Request) (schemas : list (Schema A))
    (result : option (Parsed A)) : A + Raised :=
  match schemas with
  | schema :: rest =>
      match _parse_schema request schema with
      | inr exc => inr (Uncaught exc)
      | inl result =>
          match result with
          | ParsedModel m => inl m
          | ParsedJSONDecodeError =>
              inr (HTTPBadRequest (Some "Invalid input params") None)
          | ParsedValidationError _ => _parse_json_from request rest (Some result)
          end
      end
  | [] =>
      match result with
      | Some (ParsedValidationError detail) =>
          inr (HTTPBadRequest None (Some detail))
      | _ => inr (HTTPBadRequest (Some "Incorrent input") None)
      end
  end.

Definition _parse_json {A : Type} (request : Request) (schemas : list (Schema A))
  : A + Raised :=
  let result := None in
  _parse_json_from request schemas result.

(** The two input models as schemas, their validation errors told apart
    by the name of the model. *)
Definition simple_schema : Schema InputData.t :=
  fun data =>
    match @SimpleVkInputData.model_validate strict_validators data with
    | Some m => inl (InputData.Simple m)
    | None => inr "SimpleVkInputData"
    end.

Definition posts_schema : Schema InputData.t :=
  fun data =>
    match @ParsePostsVkInputData.model_validate strict_validators data with
    | Some m => inl (InputData.ParsePosts m)
    | None => inr "ParsePostsVkInputData"
    end.

(** ** Engine construction: [create_async_engine] of [vk_parser/db/utils.py] *)

(** A keyword argument: [None], a callable known by its name, or data. *)
Inductive PyObj : Type :=
| PyNone
| PyCallable (name : string)
| PyData (j : json).

(** [**engine_kwargs]: a [dict] in insertion order. *)
Definition Kwargs : Type := list (string * PyObj).

(** [d.get(k)], which is [None] for a key that is not there. *)
Fixpoint dict_get (k : string) (d : Kwargs) : PyObj :=
  match d with
  | [] => PyNone
  | (k', v) :: rest => if String.eqb k k' then v else dict_get k rest
  end.

(** [d[k] = v]: a key that is there keeps its place. *)
Fixpoint dict_set (k : string) (v : PyObj) (d : Kwargs) : Kwargs :=
  match d with
  | [] => [(k, v)]
  | (k', v') :: rest =>
      if String.eqb k k' then (k', v) :: rest else (k', v') :: dict_set k v rest
  end.

Definition is_None (v : PyObj) : bool :=
  match v with
  | PyNone => true
  | _ => false
  end.

(** [k in d] *)
Fixpoint dict_has (k : string) (d : Kwargs) : bool :=
  match d with
  | [] => false
  | (k', _) :: rest => String.eqb k k' || dict_has k rest
  end.

(** The call [sa_create_async_engine(url=..., **engine_kwargs)] that the
    function ends in, by its arguments; what SQLAlchemy makes of the call
    is the library's. *)
Record EngineCall : Type := mkEngineCall {
  call_url : string;
  call_kwargs : Kwargs
}.

(** The [TypeError] of Python for a keyword argument given twice. *)
Inductive CallError : Type :=
| TypeError_multiple_values (keyword : string).

Definition dumps : PyObj := PyCallable "vk_parser.utils.json.dumps".

Definition orjson_loads : PyObj := PyCallable "orjson.loads".

(** A call [create_async_engine(connection_uri, **engine_kwargs)].  The
    signature binds [connection_uri] itself, so that keyword among
    [engine_kwargs] is a keyword given twice and the body does not run; the
    final call names [url] itself, so a [url] among the keywords is a
    keyword given twice there. *)
Definition create_async_engine (connection_uri : string) (engine_kwargs : Kwargs)
  : EngineCall + CallError :=
  if dict_has "connection_uri" engine_kwargs
  then inr (TypeError_multiple_values "connection_uri")
  else
    let engine_kwargs :=
      if is_None (dict_get "json_serializer" engine_kwargs)
      then dict_set "json_serializer" dumps engine_kwargs
      else engine_kwargs in
    let engine_kwargs :=
      if is_None (dict_get "json_deserializer" engine_kwargs)
      then dict_set "json_deserializer" orjson_loads engine_kwargs
      else engine_kwargs in
    if dict_has "url" engine_kwargs
    then inr (TypeError_multiple_values "url")
    else inl (mkEngineCall connection_uri engine_kwargs).

(** The id an operation addresses; [create] addresses none. *)
Definition op_id (op : Op) : option Z :=
  match op with
  | OpCreate _ => None
  | OpUpdateStatus id_ _ => Some id_
  | OpSaveError id_ _ _ => Some id_
  | OpSaveEmptyResult id_ _ _ => Some id_
  | OpSaveSuccessfulResult id_ _ _ => Some id_
  end.

(** The three requests next to a row without a discriminator and a row
    whose discriminator is a number. *)
Definition mixed_requests : World :=
  mkWorld
    (new_row 8 80 (JObj [("parser_type", JNum 1); ("max_age", JNum 10)])
     :: new_row 9 90 (JObj [("group_url", JStr "https://vk.com/example")])
     :: table three_requests)
    10 140 [] [].

(** * Properties *)

(** ** Running the operations *)

Lemma update_where_id_unknown (id_ now : Z) (v : Values) (t : list Row) :
  existsb (has_id id_) t = false -> update_where_id id_ now v t = t.
Proof.
  induction t as [|r t IH]; simpl; intros Hex; [reflexivity|].
  apply orb_false_iff in Hex as [Hr Ht].
  rewrite Hr. f_equal. now apply IH.
Qed.

Lemma filter_has_id_unknown (id_ : Z) (t : list Row) :
  existsb (has_id id_) t = false -> filter (has_id id_) t = [].
Proof.
  induction t as [|r t IH]; simpl; intros Hex; [reflexivity|].
  apply orb_false_iff in Hex as [Hr Ht].
  rewrite Hr. now apply IH.
Qed.

Lemma has_id_assign (id_ i now : Z) (v : Values) (r : Row) :
  has_id id_ (if has_id i r then assign now v r else r) = has_id id_ r.
Proof.
  destruct (has_id i r); reflexivity.
Qed.

Lemma existsb_update_where_id (id_ i now : Z) (v : Values) (t : list Row) :
  existsb (has_id id_) (update_where_id i now v t) = existsb (has_id id_) t.
Proof.
  induction t as [|r t IH]; simpl; [reflexivity|].
  now rewrite has_id_assign, IH.
Qed.

Ltac unfold_store :=
  cbv beta iota zeta delta
    [create update_status save_error save_empty_result save_successful_result
     get_detail stat_by_type _paginate get_pagination admin_pagination
     inject_session try_except bind ret raise round_trip commit log_warning
     insert_returning update_returning update_execute scalars scalar_count
     execute_stat one first validated of_option
     run_query window base_rows select_ParserRequestDb filter_by_id
     order_by_created_at_desc offset limit
     q_filter_by_id q_order_by_created_at_desc q_offset q_limit
     settled set_table set_next_id set_faults set_log healthy after result
     table next_id clock faults log db txn fst snd
     forallb firstn skipn negb andb exn_eqb].

Ltac run_script w :=
  destruct w as [t n c f l];
  destruct f as [|[] [|[] f]];
  unfold_store; rewrite ?app_nil_r; try reflexivity.

(** The three terminal saves are one statement shape: an update by id and a
    commit under [except DBAPIError], the handler only logging. *)
Lemma best_effort_run (id_ : Z) (v : Values) (msg : string) (w : World) :
  inject_session
    (try_except (update_execute id_ v ;; commit) DBAPIError (log_warning msg)) w
  = if healthy 2 w
    then (settled 2 (update_where_id id_ (clock w) v (table w)) [] w, Return tt)
    else (settled (if healthy 1 w then 2 else 1) (table w) [msg] w, Return tt).
Proof.
  run_script w.
Qed.

Lemma update_status_run {V : FieldValidators} (id_ : Z) (st : RequestStatus)
    (w : World) :
  update_status id_ st w
  = if healthy 2 w
    then
      let t' := update_where_id id_ (clock w) (mkValues (Some st) None None None)
                  (table w) in
      let w' := settled 2 t' [] w in
      match filter (has_id id_) t' with
      | [] => (w', Raise NoResultFound)
      | [obj] =>
          match DetailParserRequest.model_validate obj with
          | Some d => (w', Return (Some d))
          | None => (w', Raise ValidationError)
          end
      | _ :: _ :: _ => (w', Raise MultipleResultsFound)
      end
    else (settled (if healthy 1 w then 2 else 1) (table w) ["Error updating: %s"] w,
          Return None).
Proof.
  run_script w.
  all: match goal with
       | |- context [filter ?p ?x] => destruct (filter p x) as [|obj [|obj' rest]]
       end; try reflexivity.
  all: destruct (DetailParserRequest.model_validate obj); reflexivity.
Qed.

Lemma create_run {V : FieldValidators} (input_data : json) (w : World) :
  create input_data w
  = if healthy 2 w
    then
      let obj := new_row (next_id w) (clock w) input_data in
      let w' := set_next_id (next_id w + 1) (settled 2 (table w ++ [obj]) [] w) in
      match DetailParserRequest.model_validate obj with
      | Some d => (w', Return (Some d))
      | None => (w', Raise ValidationError)
      end
    else if healthy 1 w
    then (set_next_id (next_id w + 1)
            (settled 2 (table w) ["Error in creating parser request: %s"] w),
          Return None)
    else (settled 1 (table w) ["Error in creating parser request: %s"] w,
          Return None).
Proof.
  run_script w.
  all: match goal with
       | |- context [DetailParserRequest.model_validate ?x] =>
           destruct (DetailParserRequest.model_validate x)
       end; reflexivity.
Qed.

Lemma save_error_run (id_ finished_at : Z) (error_message : string) (w : World) :
  save_error id_ finished_at error_message w
  = if healthy 2 w
    then (settled 2
            (update_where_id id_ (clock w)
               (mkValues (Some FAILED) (Some finished_at) (Some error_message) None)
               (table w)) [] w, Return tt)
    else (settled (if healthy 1 w then 2 else 1) (table w) ["Error save error"] w,
          Return tt).
Proof.
  apply best_effort_run.
Qed.

Lemma save_empty_result_run (id_ finished_at : Z) (message : string) (w : World) :
  save_empty_result id_ finished_at message w
  = if healthy 2 w
    then (settled 2
            (update_where_id id_ (clock w)
               (mkValues (Some EMPTY) (Some finished_at) None
                  (Some (JObj [("message", JStr message); ("user_stat", JArr [])])))
               (table w)) [] w, Return tt)
    else (settled (if healthy 1 w then 2 else 1) (table w) ["Error save error"] w,
          Return tt).
Proof.
  apply best_effort_run.
Qed.

Lemma save_successful_result_run (id_ : Z) (res : ResultData.t) (finished_at : Z)
    (w : World) :
  save_successful_result id_ res finished_at w
  = if healthy 2 w
    then (settled 2
            (update_where_id id_ (clock w)
               (mkValues (Some SUCCESSFUL) (Some finished_at) None
                  (Some (ResultData.model_dump res)))
               (table w)) [] w, Return tt)
    else (settled (if healthy 1 w then 2 else 1) (table w) ["Error save error"] w,
          Return tt).
Proof.
  apply best_effort_run.
Qed.

Lemma Forall2_map_cases (A : Type) (p : A -> bool) (f : A -> A) (l : list A) :
  Forall2 (fun a a' => if p a then a' = f a else a' = a) l
    (map (fun a => if p a then f a else a) l).
Proof.
  induction l as [|a l IH]; simpl; constructor; [|exact IH].
  destruct (p a); reflexivity.
Qed.

Lemma existsb_has_id_In (id_ : Z) (t : list Row) :
  existsb (has_id id_) t = true ->
  exists r, In r t /\ ParserRequestDb.id r = id_.
Proof.
  intros Hex. apply existsb_exists in Hex as [r [Hin Hid]].
  exists r. split; [exact Hin|]. now apply Z.eqb_eq in Hid.
Qed.

(** ** Terminal saves *)

(** C9.  For an id that matches no row, each of the three terminal saves
    ([save_error], [save_empty_result], [save_successful_result]) completes
    normally whatever the driver does: it returns the unit value (the same
    value it returns in every world, so the caller cannot tell that nothing
    was written), and it leaves the table, the id sequence and the clock as
    they were; when the driver does not fail, nothing is logged either. *)
Theorem terminal_saves_unknown_id_noop (id_ finished_at : Z) (msg : string)
    (res : ResultData.t) (w : World) :
  known id_ w = false ->
  Forall
    (fun op : M World unit =>
       result op w = Return tt /\
       (forall w0 : World, result op w0 = Return tt) /\
       table (after op w) = table w /\
       next_id (after op w) = next_id w /\
       clock (after op w) = clock w /\
       (healthy 2 w = true -> log (after op w) = log w))
    [save_error id_ finished_at msg;
     save_empty_result id_ finished_at msg;
     save_successful_result id_ res finished_at].
Proof.
  intros Hun. unfold known in Hun.
  repeat constructor; unfold result, after;
    rewrite ?save_error_run, ?save_empty_result_run, ?save_successful_result_run;
    try (intros w0;
         rewrite ?save_error_run, ?save_empty_result_run, ?save_successful_result_run;
         now destruct (healthy 2 w0));
    destruct (healthy 2 w); simpl;
    rewrite ?update_where_id_unknown by exact Hun;
    try reflexivity; try discriminate; intros _; apply app_nil_r.
Qed.

Lemma terminal_saves_unknown_id_noop_witness :
  known 7 one_request = false /\
  Forall
    (fun op : M World unit =>
       result op one_request = Return tt /\
       (forall w0 : World, result op w0 = Return tt) /\
       table (after op one_request) = table one_request /\
       next_id (after op one_request) = next_id one_request /\
       clock (after op one_request) = clock one_request /\
       (healthy 2 one_request = true -> log (after op one_request) = log one_request))
    [save_error 7 200 "boom";
     save_empty_result 7 200 "boom";
     save_successful_result 7 ok_result 200].
Proof.
  split; [reflexivity|].
  apply (terminal_saves_unknown_id_noop 7 200 "boom" ok_result one_request).
  reflexivity.
Defined.

(** C6.  For an id that some row carries, [save_empty_result] always
    returns normally.  When the driver does not fail, every row with that
    id gets status [EMPTY], the given finish time and the result
    [{message: message, user_stat: []}] (its other columns apart from the
    storage-managed [updated_at] stay), every other row is untouched and
    nothing is logged.  When the driver fails, the table stays as it was and
    one warning is logged. *)
Theorem save_empty_result_writes (id_ finished_at : Z) (message : string)
    (w : World) :
  known id_ w = true ->
  let op := save_empty_result id_ finished_at message in
  let result_data := JObj [("message", JStr message); ("user_stat", JArr [])] in
  result op w = Return tt /\
  if healthy 2 w
  then
    Forall2
      (fun r r' : Row =>
         if has_id id_ r
         then r' = ParserRequestDb.Build
                     (ParserRequestDb.id r) (ParserRequestDb.created_at r) (clock w)
                     EMPTY (ParserRequestDb.input_data r) (Some result_data)
                     (Some finished_at) (ParserRequestDb.error_message r)
         else r' = r)
      (table w) (table (after op w)) /\
    (exists r' : Row,
        In r' (table (after op w)) /\
        ParserRequestDb.id r' = id_ /\
        ParserRequestDb.status r' = EMPTY /\
        ParserRequestDb.finished_at r' = Some finished_at /\
        ParserRequestDb.result_data r' = Some result_data) /\
    log (after op w) = log w
  else
    table (after op w) = table w /\
    log (after op w) = log w ++ ["Error save error"].
Proof.
  intros Hk op result_data. subst op result_data. unfold result, after.
  rewrite save_empty_result_run.
  destruct (healthy 2 w); simpl; (split; [reflexivity|]).
  - split; [|split; [|apply app_nil_r]].
    + unfold update_where_id. apply Forall2_map_cases.
    + apply existsb_has_id_In in Hk as [r [Hin Hid]].
      exists (assign (clock w)
                (mkValues (Some EMPTY) (Some finished_at) None
                   (Some (JObj [("message", JStr message); ("user_stat", JArr [])])))
                r).
      split; [|now simpl].
      unfold update_where_id. apply in_map_iff. exists r.
      split; [|exact Hin].
      unfold has_id. now rewrite Hid, Z.eqb_refl.
  - split; reflexivity.
Qed.

Lemma save_empty_result_writes_witness :
  known 1 one_request = true /\
  result (save_empty_result 1 200 "no posts") one_request = Return tt /\
  table (after (save_empty_result 1 200 "no posts") one_request)
  = [ParserRequestDb.Build 1 100 105 EMPTY simple_payload
       (Some (JObj [("message", JStr "no posts"); ("user_stat", JArr [])]))
       (Some 200) None].
Proof.
  split; [reflexivity|].
  pose proof (save_empty_result_writes 1 200 "no posts" one_request eq_refl) as H.
  cbv zeta in H. destruct H as [Hret _].
  split; [exact Hret|reflexivity].
Defined.

(** The driver failing is swallowed by [save_empty_result]. *)
Example save_empty_result_swallows :
  save_empty_result 1 200 "no posts" one_request_failing
  = (mkWorld [new_row 1 100 simple_payload] 2 105 [] ["Error save error"],
     Return tt).
Proof.
  reflexivity.
Qed.

(** ** [update_status] *)

Lemma filter_update_where_id (id_ now : Z) (v : Values) (t : list Row) :
  filter (has_id id_) (update_where_id id_ now v t)
  = map (assign now v) (filter (has_id id_) t).
Proof.
  induction t as [|r t IH]; simpl; [reflexivity|].
  destruct (has_id id_ r) eqn:Hr; simpl.
  - unfold has_id in *. simpl. rewrite Hr. simpl. now rewrite IH.
  - rewrite Hr. exact IH.
Qed.

(** Validation does not look at the status or at [updated_at]. *)
Lemma model_validate_assign_status {V : FieldValidators} (now : Z)
    (st : RequestStatus) (r : Row) (d : DetailParserRequest.t) :
  DetailParserRequest.model_validate r = Some d ->
  DetailParserRequest.model_validate (assign now (mkValues (Some st) None None None) r)
  = Some (DetailParserRequest.Build
            (DetailParserRequest.id d) (DetailParserRequest.created_at d) now st
            (DetailParserRequest.input_data d) (DetailParserRequest.result_data d)
            (DetailParserRequest.finished_at d)
            (DetailParserRequest.error_message d)).
Proof.
  unfold DetailParserRequest.model_validate. simpl.
  destruct (InputData.model_validate (ParserRequestDb.input_data r)); simpl;
    [|discriminate].
  destruct (DetailParserRequest.validate_result_data (ParserRequestDb.result_data r));
    simpl; [|discriminate].
  intros [= <-]. reflexivity.
Qed.

(** The part of C1 the code does deliver: the row exists and the write
    succeeds. *)
Lemma update_status_known_returns {V : FieldValidators} (id_ : Z)
    (st : RequestStatus) (w : World) (r : Row) (d : DetailParserRequest.t) :
  filter (has_id id_) (table w) = [r] ->
  DetailParserRequest.model_validate r = Some d ->
  healthy 2 w = true ->
  result (update_status id_ st) w
  = Return (Some (DetailParserRequest.Build
                    (DetailParserRequest.id d) (DetailParserRequest.created_at d)
                    (clock w) st
                    (DetailParserRequest.input_data d)
                    (DetailParserRequest.result_data d)
                    (DetailParserRequest.finished_at d)
                    (DetailParserRequest.error_message d))).
Proof.
  intros Hrow Hval Hh. unfold result.
  rewrite update_status_run, Hh. cbv zeta.
  rewrite filter_update_where_id, Hrow. simpl.
  now rewrite (model_validate_assign_status (clock w) st r Hval).
Qed.

(** The part of C1 the code does deliver: a failure of the driver. *)
Lemma update_status_failure_returns_None {V : FieldValidators} (id_ : Z)
    (st : RequestStatus) (w : World) :
  healthy 2 w = false ->
  result (update_status id_ st) w = Return None /\
  table (after (update_status id_ st) w) = table w.
Proof.
  intros Hh. unfold result, after. rewrite update_status_run, Hh.
  split; reflexivity.
Qed.

(** C1, where the code departs from it.  With a healthy driver and no row
    of the given id, [update_status] does not return [None]: the update
    matches nothing, the commit succeeds, and [result.one()] raises
    [NoResultFound], which [except DBAPIError] does not catch.  The table is
    left as it was. *)
Theorem update_status_unknown_id_raises {V : FieldValidators} (id_ : Z)
    (st : RequestStatus) (w : World) :
  known id_ w = false ->
  healthy 2 w = true ->
  result (update_status id_ st) w = Raise NoResultFound /\
  table (after (update_status id_ st) w) = table w.
Proof.
  intros Hun Hh. unfold known in Hun. unfold result, after.
  rewrite update_status_run, Hh. cbv zeta.
  rewrite filter_update_where_id, (filter_has_id_unknown _ _ Hun). simpl.
  split; [reflexivity|]. now apply update_where_id_unknown.
Qed.

Lemma update_status_unknown_id_raises_witness :
  known 1 empty_world = false /\
  healthy 2 empty_world = true /\
  result (@update_status strict_validators 1 PROCESSING) empty_world
  = Raise NoResultFound.
Proof.
  split; [reflexivity|]. split; [reflexivity|].
  apply (@update_status_unknown_id_raises strict_validators 1 PROCESSING empty_world);
    reflexivity.
Defined.

(** C10.  A successful [update_status] rewrites, in the rows of the given
    id, the status and the storage-managed [updated_at] and nothing else:
    [id], [created_at], [input_data], [result_data], [finished_at] and
    [error_message] of those rows are as before, and every other row is
    the row it was; the id sequence, the clock and the log are untouched. *)
Theorem update_status_frame {V : FieldValidators} (id_ : Z) (st : RequestStatus)
    (w w' : World) (d : DetailParserRequest.t) :
  update_status id_ st w = (w', Return (Some d)) ->
  Forall2
    (fun r r' : Row =>
       if has_id id_ r
       then r' = ParserRequestDb.Build
                   (ParserRequestDb.id r) (ParserRequestDb.created_at r) (clock w)
                   st (ParserRequestDb.input_data r) (ParserRequestDb.result_data r)
                   (ParserRequestDb.finished_at r) (ParserRequestDb.error_message r)
       else r' = r)
    (table w) (table w') /\
  next_id w' = next_id w /\
  clock w' = clock w /\
  log w' = log w.
Proof.
  rewrite update_status_run.
  destruct (healthy 2 w); [|discriminate]. cbv zeta.
  destruct (filter _ _) as [|obj [|obj' rest]]; try discriminate.
  destruct (DetailParserRequest.model_validate obj); [|discriminate].
  intros [= <- _]. simpl.
  split; [|split; [|split]]; try reflexivity; [|apply app_nil_r].
  unfold update_where_id. apply Forall2_map_cases.
Qed.

Lemma update_status_frame_witness :
  exists (w' : World) (d : DetailParserRequest.t),
    @update_status strict_validators 1 PROCESSING one_request = (w', Return (Some d)) /\
    table w' = [ParserRequestDb.Build 1 100 105 PROCESSING simple_payload None None None] /\
    log w' = log one_request.
Proof.
  eexists. eexists. split; [reflexivity|].
  split; [reflexivity|].
  eapply (@update_status_frame strict_validators 1 PROCESSING one_request).
  reflexivity.
Defined.

(** ** [create] *)

(** A new row validates as soon as its payload does. *)
Lemma new_row_validates {V : FieldValidators} (payload : json) (v : InputData.t)
    (id_ now : Z) :
  InputData.model_validate payload = Some v ->
  DetailParserRequest.model_validate (new_row id_ now payload)
  = Some (DetailParserRequest.Build id_ now now PENDING v None None None).
Proof.
  intros Hval. unfold DetailParserRequest.model_validate, new_row. simpl.
  now rewrite Hval.
Qed.

(** C4.  For a payload that the input union validates, [create] with a
    healthy driver appends exactly one row to the table: it holds the
    payload as given, a server-assigned id and creation time, status
    [PENDING], and no finish time, result or error; the call returns the
    detail projection of that very row.  When the driver fails at the insert
    or at the commit, the call returns [None], the table is as before and
    one warning is logged. *)
Theorem create_inserts_pending {V : FieldValidators} (payload : json)
    (v : InputData.t) (w : World) :
  InputData.model_validate payload = Some v ->
  let op := create payload in
  let row :=
    ParserRequestDb.Build (next_id w) (clock w) (clock w) PENDING payload
      None None None in
  let d :=
    DetailParserRequest.Build (next_id w) (clock w) (clock w) PENDING v
      None None None in
  if healthy 2 w
  then
    result op w = Return (Some d) /\
    DetailParserRequest.model_validate row = Some d /\
    table (after op w) = table w ++ [row] /\
    log (after op w) = log w
  else
    result op w = Return None /\
    table (after op w) = table w /\
    log (after op w) = log w ++ ["Error in creating parser request: %s"].
Proof.
  intros Hval op row d. subst op row d. unfold result, after.
  rewrite create_run.
  pose proof (new_row_validates payload (next_id w) (clock w) Hval) as Hrow.
  destruct (healthy 2 w).
  - cbv zeta. rewrite Hrow. simpl.
    repeat split; [exact Hrow|apply app_nil_r].
  - destruct (healthy 1 w); simpl; repeat split.
Qed.

Lemma create_inserts_pending_witness :
  @InputData.model_validate strict_validators simple_payload
  = Some (InputData.Simple (SimpleVkInputData.Build "https://vk.com/example" 10)) /\
  result (@create strict_validators simple_payload) empty_world
  = Return (Some (DetailParserRequest.Build 1 100 100 PENDING
                    (InputData.Simple
                       (SimpleVkInputData.Build "https://vk.com/example" 10))
                    None None None)).
Proof.
  split; [reflexivity|].
  pose proof (@create_inserts_pending strict_validators simple_payload _ empty_world
                eq_refl) as H.
  cbv zeta in H. exact (proj1 H).
Defined.

(** A failing driver makes [create] answer [None]. *)
Example create_failing_driver :
  @create strict_validators simple_payload (mkWorld [] 1 100 [false; true] [])
  = (mkWorld [] 2 100 [] ["Error in creating parser request: %s"], Return None).
Proof.
  reflexivity.
Qed.

(** ** The discriminator *)

Lemma ParserTypes_value_inj (a b : ParserTypes) :
  ParserTypes_value a = ParserTypes_value b -> a = b.
Proof.
  destruct a, b; simpl; intros Heq; try reflexivity; discriminate.
Qed.

(** A validated payload carries the tag of the variant it validated as. *)
Lemma model_validate_tag {V : FieldValidators} (payload : json) (v : InputData.t) :
  InputData.model_validate payload = Some v ->
  field "parser_type" payload = Some (JStr (ParserTypes_value (InputData.parser_type v))).
Proof.
  unfold InputData.model_validate.
  destruct (field "parser_type" payload) as [[| | |s| |]|]; try discriminate.
  destruct (String.eqb s (ParserTypes_value VK_DOWNLOAD_AND_PARSED_POSTS)) eqn:Hp.
  - apply String.eqb_eq in Hp. subst s.
    destruct (ParsePostsVkInputData.model_validate payload); simpl; [|discriminate].
    intros [= <-]. reflexivity.
  - destruct (String.eqb s (ParserTypes_value VK_SIMPLE_DOWNLOAD)) eqn:Hs;
      [|discriminate].
    apply String.eqb_eq in Hs. subst s.
    destruct (SimpleVkInputData.model_validate payload); simpl; [|discriminate].
    intros [= <-]. reflexivity.
Qed.

Lemma filter_Permutation (A : Type) (p : A -> bool) (l l' : list A) :
  Permutation l l' -> Permutation (filter p l) (filter p l').
Proof.
  induction 1 as [|a l l' _ IH|a b l|l l' l'' _ IH1 _ IH2]; simpl.
  - constructor.
  - destruct (p a); [now constructor|exact IH].
  - destruct (p a), (p b); try reflexivity. apply perm_swap.
  - now transitivity (filter p l').
Qed.

Lemma get_detail_run {V : FieldValidators} {E : Engine} (id_ : Z) (w : World) :
  get_detail id_ w
  = if healthy 1 w
    then
      match filter (has_id id_) (scan (table w)) with
      | [] => (settled 1 (table w) [] w, Return None)
      | obj :: _ =>
          match DetailParserRequest.model_validate obj with
          | Some d => (settled 1 (table w) [] w, Return (Some d))
          | None => (settled 1 (table w) [] w, Raise ValidationError)
          end
      end
    else (settled 1 (table w) [] w, Raise DBAPIError).
Proof.
  destruct w as [t n c f l].
  destruct f as [|[] f]; unfold_store; rewrite ?app_nil_r; try reflexivity.
  all: destruct (filter _ _) as [|obj rest]; try reflexivity.
  all: destruct (DetailParserRequest.model_validate obj); reflexivity.
Qed.

(** The row of a fresh id is the one row a lookup by that id finds. *)
Lemma filter_fresh_row {E : Engine} (t : list Row) (obj : Row) :
  existsb (has_id (ParserRequestDb.id obj)) t = false ->
  filter (has_id (ParserRequestDb.id obj)) (scan (t ++ [obj])) = [obj].
Proof.
  intros Hfresh.
  apply Permutation_length_1_inv. symmetry.
  rewrite (filter_Permutation (has_id (ParserRequestDb.id obj)) (scan_perm (t ++ [obj]))).
  rewrite filter_app, (filter_has_id_unknown _ _ Hfresh). simpl.
  unfold has_id. now rewrite Z.eqb_refl.
Qed.

(** C7.  The derived [parser_type] of a detail record is the [parser_type]
    of its input, for both variants.  A request created from a validated
    payload that carries the discriminator [pt] reads back with
    [parser_type] equal to [pt]: in the record [create] returns, and in the
    record a later [get_detail] of the new id returns. *)
Theorem parser_type_read_back {V : FieldValidators} {E : Engine}
    (d0 : DetailParserRequest.t) (payload : json) (pt : ParserTypes)
    (v : InputData.t) (w : World) :
  field "parser_type" payload = Some (JStr (ParserTypes_value pt)) ->
  InputData.model_validate payload = Some v ->
  healthy 3 w = true ->
  known (next_id w) w = false ->
  DetailParserRequest.parser_type d0
  = InputData.parser_type (DetailParserRequest.input_data d0) /\
  DetailParserRequest.parser_type d0
  = match DetailParserRequest.input_data d0 with
    | InputData.ParsePosts _ => VK_DOWNLOAD_AND_PARSED_POSTS
    | InputData.Simple _ => VK_SIMPLE_DOWNLOAD
    end /\
  exists d : DetailParserRequest.t,
    result (create payload) w = Return (Some d) /\
    DetailParserRequest.parser_type d = pt /\
    exists d' : DetailParserRequest.t,
      result (get_detail (DetailParserRequest.id d)) (after (create payload) w)
      = Return (Some d') /\
      DetailParserRequest.parser_type d' = pt.
Proof.
  intros Htag Hval Hh Hfresh.
  split; [reflexivity|]. split; [now destruct d0 as [? ? ? ? [?|?] ? ? ?]|].
  assert (Hpt : InputData.parser_type v = pt).
  { apply model_validate_tag in Hval. rewrite Htag in Hval.
    injection Hval as Hval. symmetry. now apply ParserTypes_value_inj. }
  assert (Hh2 : healthy 2 w = true /\
                forall t msgs, healthy 1 (settled 2 t msgs w) = true).
  { destruct w as [t n c f l]. unfold healthy, settled in *. simpl in *.
    destruct f as [|[] [|[] [|[] f]]]; simpl in *; try discriminate; auto. }
  destruct Hh2 as [Hh2 Hh1].
  pose proof (new_row_validates payload (next_id w) (clock w) Hval) as Hrow.
  exists (DetailParserRequest.Build (next_id w) (clock w) (clock w) PENDING v
            None None None).
  unfold result, after. rewrite create_run, Hh2. cbv zeta. rewrite Hrow.
  split; [reflexivity|]. split; [exact Hpt|].
  exists (DetailParserRequest.Build (next_id w) (clock w) (clock w) PENDING v
            None None None).
  split; [|exact Hpt].
  rewrite get_detail_run.
  change (healthy 1 _) with
    (healthy 1 (settled 2 (table w ++ [new_row (next_id w) (clock w) payload]) [] w)).
  rewrite Hh1.
  change (table (fst _)) with (table w ++ [new_row (next_id w) (clock w) payload]).
  change (DetailParserRequest.id _) with
    (ParserRequestDb.id (new_row (next_id w) (clock w) payload)).
  rewrite filter_fresh_row by exact Hfresh.
  now rewrite Hrow.
Qed.

Lemma parser_type_read_back_witness :
  field "parser_type" posts_payload
  = Some (JStr (ParserTypes_value VK_DOWNLOAD_AND_PARSED_POSTS)) /\
  healthy 3 empty_world = true /\
  known (next_id empty_world) empty_world = false /\
  exists d : DetailParserRequest.t,
    result (@create strict_validators posts_payload) empty_world = Return (Some d) /\
    DetailParserRequest.parser_type d = VK_DOWNLOAD_AND_PARSED_POSTS.
Proof.
  split; [reflexivity|]. split; [reflexivity|]. split; [reflexivity|].
  destruct (@parser_type_read_back strict_validators heap_engine
              (DetailParserRequest.Build 1 100 100 PENDING
                 (InputData.Simple (SimpleVkInputData.Build "u" 1)) None None None)
              posts_payload VK_DOWNLOAD_AND_PARSED_POSTS
              (InputData.ParsePosts
                 (ParsePostsVkInputData.Build "https://vk.com/example" 50 10))
              empty_world eq_refl eq_refl eq_refl eq_refl)
    as [_ [_ [d [Hret [Hpt _]]]]].
  exists d. split; [exact Hret|exact Hpt].
Defined.

(** ** Statistics *)

Lemma stat_run {E : Engine} (w : World) :
  stat w
  = if healthy 2 w
    then (settled 2 (table w) [] w,
          Return (flat_map
                    (fun pt => tagged pt (group_by_status (filter (is_of_type pt) (table w))))
                    ParserTypes_members))
    else (settled 2 (table w) [] w, Raise DBAPIError).
Proof.
  destruct w as [t n c f l].
  destruct f as [|[] [|[] f]]; unfold stat, gather, ParserTypes_members, tagged;
    unfold_store; simpl; rewrite ?app_nil_r; reflexivity.
Qed.

Lemma RequestStatus_eqb_eq (a b : RequestStatus) :
  RequestStatus_eqb a b = true <-> a = b.
Proof.
  destruct a, b; simpl; split; intros H; try reflexivity; discriminate.
Qed.

Lemma RequestStatus_members_NoDup : NoDup RequestStatus_members.
Proof.
  unfold RequestStatus_members.
  repeat constructor; simpl; intuition discriminate.
Qed.

Lemma RequestStatus_members_all (s : RequestStatus) : In s RequestStatus_members.
Proof.
  destruct s; simpl; auto 6.
Qed.

Lemma sumZ_app (l l' : list Z) : sumZ (l ++ l') = sumZ l + sumZ l'.
Proof.
  induction l as [|a l IH]; simpl; [reflexivity|]. rewrite IH. lia.
Qed.

Lemma sumZ_Permutation (l l' : list Z) : Permutation l l' -> sumZ l = sumZ l'.
Proof.
  induction 1; simpl; lia.
Qed.

(** Grouping, for any way of counting the occurrences of a status. *)
Section Groups.
Variable cnt : RequestStatus -> Z.
Hypothesis cnt_nonneg : forall st, 0 <= cnt st.

Lemma groups_In (order : list RequestStatus) (st : RequestStatus) (n : Z) :
  In (st, n) (groups cnt order) <-> In st order /\ n = cnt st /\ 0 < n.
Proof.
  unfold groups. rewrite in_flat_map. split.
  - intros [st' [Hord Hin]].
    destruct (0 <? cnt st') eqn:Hpos; simpl in Hin; [|contradiction].
    destruct Hin as [[= <- <-]|[]].
    repeat split; [exact Hord|now apply Z.ltb_lt].
  - intros [Hord [-> Hpos]]. exists st. split; [exact Hord|].
    apply Z.ltb_lt in Hpos. rewrite Hpos. now left.
Qed.

Lemma groups_keys (order : list RequestStatus) (st : RequestStatus) :
  In st (map fst (groups cnt order)) -> In st order.
Proof.
  rewrite in_map_iff. intros [[st' n] [<- Hin]].
  now apply groups_In in Hin.
Qed.

Lemma groups_NoDup (order : list RequestStatus) :
  NoDup order -> NoDup (map fst (groups cnt order)).
Proof.
  induction 1 as [|s order Hnotin _ IH]; simpl; [constructor|].
  change (groups cnt (s :: order))
    with ((if 0 <? cnt s then [(s, cnt s)] else []) ++ groups cnt order).
  rewrite map_app.
  destruct (0 <? cnt s); simpl; [|exact IH].
  constructor; [|exact IH].
  intros Hin. apply Hnotin. now apply groups_keys.
Qed.

Lemma groups_sum (order : list RequestStatus) :
  sumZ (map snd (groups cnt order)) = sumZ (map cnt order).
Proof.
  induction order as [|s order IH]; simpl; [reflexivity|].
  change (groups cnt (s :: order))
    with ((if 0 <? cnt s then [(s, cnt s)] else []) ++ groups cnt order).
  rewrite map_app, sumZ_app, IH.
  destruct (0 <? cnt s) eqn:Hpos; simpl; [lia|].
  apply Z.ltb_ge in Hpos. pose proof (cnt_nonneg s). lia.
Qed.

End Groups.

Lemma status_count_cons (st : RequestStatus) (r : Row) (t : list Row) :
  Z.of_nat (List.length (filter (has_status st) (r :: t)))
  = (if RequestStatus_eqb (ParserRequestDb.status r) st then 1 else 0)
    + Z.of_nat (List.length (filter (has_status st) t)).
Proof.
  cbn [filter]. unfold has_status at 1.
  destruct (RequestStatus_eqb (ParserRequestDb.status r) st);
    cbn [List.length]; lia.
Qed.

Lemma status_counts_total (rows : list Row) :
  sumZ (map (fun st => Z.of_nat (List.length (filter (has_status st) rows)))
          RequestStatus_members)
  = Z.of_nat (List.length rows).
Proof.
  unfold RequestStatus_members, sumZ.
  induction rows as [|r t IH]; [reflexivity|].
  cbn [map fold_right] in *. rewrite !status_count_cons.
  destruct (ParserRequestDb.status r); cbn [RequestStatus_eqb List.length]; lia.
Qed.

Lemma group_by_status_groups {E : Engine} (rows : list Row) :
  group_by_status rows
  = groups (fun st => Z.of_nat (List.length (filter (has_status st) rows)))
      group_order.
Proof.
  reflexivity.
Qed.

Lemma group_by_status_In {E : Engine} (rows : list Row) (st : RequestStatus) (n : Z) :
  In (st, n) (group_by_status rows)
  <-> n = Z.of_nat (List.length (filter (has_status st) rows)) /\ 0 < n.
Proof.
  rewrite group_by_status_groups, groups_In.
  pose proof (group_order_all st). tauto.
Qed.

Lemma group_by_status_NoDup {E : Engine} (rows : list Row) :
  NoDup (map fst (group_by_status rows)).
Proof.
  rewrite group_by_status_groups. apply groups_NoDup, group_order_NoDup.
Qed.

Lemma group_by_status_sum {E : Engine} (rows : list Row) :
  sumZ (map snd (group_by_status rows)) = Z.of_nat (List.length rows).
Proof.
  rewrite group_by_status_groups, groups_sum by (intros; lia).
  rewrite <- status_counts_total.
  apply sumZ_Permutation, Permutation_map, NoDup_Permutation.
  - apply group_order_NoDup.
  - apply RequestStatus_members_NoDup.
  - intros s. split; intros _;
      [apply RequestStatus_members_all|apply group_order_all].
Qed.

Lemma tagged_In (p pt : ParserTypes) (res : list (RequestStatus * Z))
    (st : RequestStatus) (n : Z) :
  In (pt, st, n) (tagged p res) <-> pt = p /\ In (st, n) res.
Proof.
  unfold tagged. rewrite in_map_iff. split.
  - intros [[st' n'] [[= <- <- <-] Hin]]. now split.
  - intros [-> Hin]. now exists (st, n).
Qed.

Lemma tagged_keys (p : ParserTypes) (res : list (RequestStatus * Z)) :
  map stat_key (tagged p res) = map (pair p) (map fst res).
Proof.
  unfold tagged. rewrite !map_map. apply map_ext. now intros [st n].
Qed.

Lemma tagged_counts (p pt : ParserTypes) (res : list (RequestStatus * Z)) :
  counts_of_type pt (tagged p res)
  = if ParserTypes_eqb p pt then map snd res else [].
Proof.
  unfold counts_of_type, tagged.
  induction res as [|[st n] res IH]; simpl.
  - now destruct (ParserTypes_eqb p pt).
  - destruct (ParserTypes_eqb p pt); simpl; [now rewrite IH|exact IH].
Qed.

Lemma counts_of_type_app (pt : ParserTypes)
    (l l' : list (ParserTypes * RequestStatus * Z)) :
  counts_of_type pt (l ++ l') = counts_of_type pt l ++ counts_of_type pt l'.
Proof.
  unfold counts_of_type. now rewrite filter_app, map_app.
Qed.

Lemma is_of_type_discriminator {E : Engine} (pt : ParserTypes) (r : Row) :
  renders_no_type E -> is_of_type pt r = has_discriminator pt r.
Proof.
  intros Hrender. unfold is_of_type, has_discriminator, astext.
  destruct (field "parser_type" (ParserRequestDb.input_data r)) as [v|];
    [|reflexivity].
  destruct v; try reflexivity;
    apply String.eqb_neq, Hrender; discriminate.
Qed.

(** C3.  Let the engine never render a JSON value that is not a string as
    the value of a parser type.  With a healthy driver [stat] returns, for
    each parser type in the enumeration order of [ParserTypes], the groups
    of that type one after the other (whatever order the engine yields the
    groups of one type in): a triple [(pt, st, n)] is returned exactly when
    [n] is the positive number of rows whose [input_data] has [parser_type]
    equal to [pt] and whose status is [st], no pair [(pt, st)] is reported
    twice, and the counts of a type add up to the number of rows whose
    [input_data] has that [parser_type].  The table is not touched.  When
    a per-type query fails, the failure reaches the caller and no partial
    result is returned. *)
Theorem stat_complete {E : Engine} (w : World) :
  renders_no_type E ->
  table (after stat w) = table w /\
  if healthy 2 w
  then
    exists out : list (ParserTypes * RequestStatus * Z),
      result stat w = Return out /\
      (exists res : ParserTypes -> list (RequestStatus * Z),
          out = flat_map (fun pt => tagged pt (res pt)) ParserTypes_members) /\
      (forall pt st n,
          In (pt, st, n) out <-> n = rows_with pt st (table w) /\ 0 < n) /\
      NoDup (map stat_key out) /\
      (forall pt,
          sumZ (counts_of_type pt out)
          = Z.of_nat (List.length (filter (has_discriminator pt) (table w))))
  else result stat w = Raise DBAPIError.
Proof.
  intros Hrender.
  assert (Hfilter : forall pt,
             filter (is_of_type pt) (table w)
             = filter (has_discriminator pt) (table w)).
  { intros pt. apply filter_ext. intros r.
    now apply is_of_type_discriminator. }
  unfold result, after. rewrite stat_run.
  destruct (healthy 2 w); simpl; (split; [reflexivity|]); [|reflexivity].
  eexists. split; [reflexivity|].
  split; [|split; [|split]].
  - exists (fun pt => group_by_status (filter (is_of_type pt) (table w))).
    reflexivity.
  - intros pt st n. rewrite app_nil_r, in_app_iff, !tagged_In, !group_by_status_In.
    unfold rows_with. rewrite <- !Hfilter. destruct pt; intuition discriminate.
  - rewrite app_nil_r, map_app, !tagged_keys.
    apply NoDup_app.
    + apply Injective_map_NoDup; [|apply group_by_status_NoDup].
      intros a b [= ->]. reflexivity.
    + apply Injective_map_NoDup; [|apply group_by_status_NoDup].
      intros a b [= ->]. reflexivity.
    + intros [p st]. rewrite !in_map_iff.
      intros [s1 [[= <- <-] _]] [s2 [[=] _]].
  - intros pt. rewrite app_nil_r, counts_of_type_app, !tagged_counts.
    rewrite <- Hfilter.
    destruct pt; simpl; rewrite ?app_nil_r; apply group_by_status_sum.
Qed.

Lemma stat_complete_witness :
  renders_no_type heap_engine /\
  result (@stat heap_engine) mixed_requests
  = Return [(VK_SIMPLE_DOWNLOAD, PENDING, 1);
            (VK_SIMPLE_DOWNLOAD, EMPTY, 1);
            (VK_DOWNLOAD_AND_PARSED_POSTS, PENDING, 1)] /\
  (forall pt st n,
      In (pt, st, n)
        [(VK_SIMPLE_DOWNLOAD, PENDING, 1);
         (VK_SIMPLE_DOWNLOAD, EMPTY, 1);
         (VK_DOWNLOAD_AND_PARSED_POSTS, PENDING, 1)]
      <-> n = rows_with pt st (table mixed_requests) /\ 0 < n).
Proof.
  assert (Hrender : renders_no_type heap_engine).
  { intros v pt _. destruct pt; discriminate. }
  split; [exact Hrender|]. split; [reflexivity|].
  destruct (@stat_complete heap_engine mixed_requests Hrender) as [_ Hstat].
  change (healthy 2 mixed_requests) with true in Hstat.
  destruct Hstat as [out [Hres [_ [Hin _]]]].
  injection Hres as <-. exact Hin.
Defined.

(** The statuses of one type come in the order the engine groups them in. *)
Example stat_three_requests :
  result (@stat heap_engine) three_requests
  = Return [(VK_SIMPLE_DOWNLOAD, PENDING, 1);
            (VK_SIMPLE_DOWNLOAD, EMPTY, 1);
            (VK_DOWNLOAD_AND_PARSED_POSTS, PENDING, 1)] /\
  result (@stat reverse_engine) three_requests
  = Return [(VK_SIMPLE_DOWNLOAD, EMPTY, 1);
            (VK_SIMPLE_DOWNLOAD, PENDING, 1);
            (VK_DOWNLOAD_AND_PARSED_POSTS, PENDING, 1)].
Proof.
  split; reflexivity.
Qed.

(** A failing per-type query fails the whole call. *)
Example stat_failing_driver :
  result (@stat heap_engine) (mkWorld (table three_requests) 4 140 [false; true] [])
  = Raise DBAPIError.
Proof.
  reflexivity.
Qed.

(** ** Pagination *)

Lemma validated_all_run (S A : Type) (model_type : Row -> option A)
    (rows : list Row) (s : S) :
  validated_all model_type rows s
  = (s, match opt_all model_type rows with
        | Some l => Return l
        | None => Raise ValidationError
        end).
Proof.
  induction rows as [|obj rows IH]; simpl; [reflexivity|].
  unfold bind, validated, of_option.
  destruct (model_type obj) as [a|]; simpl; [|reflexivity].
  rewrite IH. now destruct (opt_all model_type rows).
Qed.

Lemma paginate_run {E : Engine} (A : Type) (q : Query) (p k : Z)
    (model_type : Row -> option A) (w : World) :
  _paginate q p k model_type w
  = if healthy 2 w
    then
      match window (Some ((p - 1) * k)) (Some k) (base_rows q (table w)) with
      | None => (settled 2 (table w) [] w, Raise DBAPIError)
      | Some rows =>
          match opt_all model_type rows with
          | Some l =>
              (settled 2 (table w) [] w,
               Return (mkPage l (Z.of_nat (List.length (base_rows q (table w)))) p k))
          | None => (settled 2 (table w) [] w, Raise ValidationError)
          end
      end
    else (settled (if healthy 1 w then 2 else 1) (table w) [] w, Raise DBAPIError).
Proof.
  destruct w as [t n c f l].
  destruct f as [|[] [|[] f]];
    cbv beta iota zeta delta
      [_paginate inject_session bind scalar_count scalars round_trip run_query
       of_option ret raise healthy settled faults db txn table next_id clock log
       set_faults fst snd firstn skipn forallb negb andb
       base_rows q_offset q_limit q_filter_by_id q_order_by_created_at_desc
       limit offset];
    rewrite ?app_nil_r; try reflexivity.
  all: destruct (window _ _ _) as [rows|]; try reflexivity.
  all: rewrite validated_all_run; destruct (opt_all model_type rows); reflexivity.
Qed.

(** *** Newest first *)

Lemma insert_desc_In (r x : Row) (l : list Row) :
  In x (insert_desc r l) -> x = r \/ In x l.
Proof.
  induction l as [|y l IH]; simpl.
  - intros [<-|[]]. now left.
  - destruct (ParserRequestDb.created_at y <=? ParserRequestDb.created_at r); simpl.
    + intros [<-|[<-|Hin]]; auto.
    + intros [<-|Hin]; auto. destruct (IH Hin); auto.
Qed.

Lemma insert_desc_sorted (r : Row) (l : list Row) :
  StronglySorted newer_or_same l -> StronglySorted newer_or_same (insert_desc r l).
Proof.
  induction 1 as [|y l Hs IH Hall]; simpl.
  - repeat constructor.
  - destruct (ParserRequestDb.created_at y <=? ParserRequestDb.created_at r) eqn:Hle.
    + apply Z.leb_le in Hle. constructor; [now constructor|].
      constructor; [exact Hle|].
      eapply Forall_impl; [|exact Hall].
      unfold newer_or_same. intros z Hz. lia.
    + apply Z.leb_gt in Hle. constructor; [exact IH|].
      apply Forall_forall. intros z Hz.
      apply insert_desc_In in Hz as [->|Hz].
      * unfold newer_or_same. lia.
      * rewrite Forall_forall in Hall. now apply Hall.
Qed.

Lemma sort_desc_sorted (l : list Row) : StronglySorted newer_or_same (sort_desc l).
Proof.
  induction l as [|r l IH]; simpl; [constructor|].
  now apply insert_desc_sorted.
Qed.

Lemma insert_desc_perm (r : Row) (l : list Row) :
  Permutation (insert_desc r l) (r :: l).
Proof.
  induction l as [|y l IH]; simpl; [reflexivity|].
  destruct (ParserRequestDb.created_at y <=? ParserRequestDb.created_at r);
    [reflexivity|].
  rewrite IH. apply perm_swap.
Qed.

Lemma sort_desc_perm (l : list Row) : Permutation (sort_desc l) l.
Proof.
  induction l as [|r l IH]; simpl; [reflexivity|].
  rewrite insert_desc_perm. now constructor.
Qed.

Lemma StronglySorted_skipn (A : Type) (R : A -> A -> Prop) (n : nat) (l : list A) :
  StronglySorted R l -> StronglySorted R (skipn n l).
Proof.
  revert l. induction n as [|n IH]; intros l Hs; [exact Hs|].
  destruct Hs; simpl; [constructor|]. now apply IH.
Qed.

Lemma StronglySorted_firstn (A : Type) (R : A -> A -> Prop) (n : nat) (l : list A) :
  StronglySorted R l -> StronglySorted R (firstn n l).
Proof.
  revert l. induction n as [|n IH]; intros l Hs; simpl; [constructor|].
  destruct Hs as [|a l Hs Hall]; [constructor|].
  constructor; [now apply IH|].
  rewrite Forall_forall in *. intros x Hx. apply Hall.
  rewrite <- (firstn_skipn n l). apply in_or_app. now left.
Qed.

Lemma model_validate_created_at {V : FieldValidators} (r : Row)
    (d : DetailParserRequest.t) :
  DetailParserRequest.model_validate r = Some d ->
  DetailParserRequest.created_at d = ParserRequestDb.created_at r.
Proof.
  unfold DetailParserRequest.model_validate.
  destruct (InputData.model_validate _); simpl; [|discriminate].
  destruct (DetailParserRequest.validate_result_data (ParserRequestDb.result_data r));
    simpl; [|discriminate].
  now intros [= <-].
Qed.

Lemma opt_all_created_at {V : FieldValidators} (rows : list Row)
    (ds : list DetailParserRequest.t) :
  opt_all DetailParserRequest.model_validate rows = Some ds ->
  map DetailParserRequest.created_at ds = map ParserRequestDb.created_at rows.
Proof.
  revert ds. induction rows as [|r rows IH]; simpl; intros ds.
  - now intros [= <-].
  - destruct (DetailParserRequest.model_validate r) as [d|] eqn:Hd; [|discriminate].
    destruct (opt_all _ rows) as [ds'|]; [|discriminate].
    intros [= <-]. simpl.
    now rewrite (model_validate_created_at _ Hd), (IH ds' eq_refl).
Qed.

Lemma opt_all_total (A B : Type) (f : A -> option B) (l : list A) :
  Forall (fun a => f a <> None) l -> exists l', opt_all f l = Some l'.
Proof.
  induction 1 as [|a l Ha _ [l' IH]]; simpl; [now exists []|].
  destruct (f a) as [b|]; [|contradiction]. rewrite IH. now exists (b :: l').
Qed.

Lemma sorted_created_at (rows : list Row) :
  StronglySorted newer_or_same rows ->
  non_increasing (map ParserRequestDb.created_at rows).
Proof.
  intros Hs. apply StronglySorted_Sorted in Hs.
  induction Hs as [|r rows _ IH Hhd]; simpl; constructor; [exact IH|].
  destruct Hhd; simpl; constructor. assumption.
Qed.

Lemma window_Some (o k : Z) (rows l : list Row) :
  window (Some o) (Some k) rows = Some l ->
  l = firstn (Z.to_nat k) (skipn (Z.to_nat o) rows).
Proof.
  unfold window. destruct (o <? 0); [discriminate|].
  destruct (k <? 0); [discriminate|]. now intros [= <-].
Qed.

Lemma window_total (o k : Z) (rows : list Row) :
  0 <= o -> 0 <= k ->
  window (Some o) (Some k) rows
  = Some (firstn (Z.to_nat k) (skipn (Z.to_nat o) rows)).
Proof.
  intros Ho Hk. unfold window.
  apply Z.ltb_ge in Ho, Hk. now rewrite Ho, Hk.
Qed.

(** C5.  Whenever [admin_pagination] returns a page, its items are the
    detail projections of the rows that the offset and the limit cut out of
    the table sorted by creation time, newest first, and the creation times
    of consecutive items never increase.  It does return a page when the
    page number is at least 1, the page size is not negative, the driver is
    healthy and every stored row validates as a detail record. *)
Theorem admin_pagination_newest_first {V : FieldValidators} {E : Engine}
    (p k : Z) (w : World) :
  (forall (w' : World) (pg : PaginationResponse DetailParserRequest.t),
      admin_pagination p k w = (w', Return pg) ->
      non_increasing (map DetailParserRequest.created_at (items pg)) /\
      opt_all DetailParserRequest.model_validate
        (firstn (Z.to_nat k)
           (skipn (Z.to_nat ((p - 1) * k)) (sort_desc (scan (table w)))))
      = Some (items pg) /\
      table w' = table w) /\
  (1 <= p -> 0 <= k -> healthy 2 w = true ->
   Forall (fun r => DetailParserRequest.model_validate r <> None) (table w) ->
   exists pg : PaginationResponse DetailParserRequest.t,
     result (admin_pagination p k) w = Return pg).
Proof.
  unfold admin_pagination, result. cbv zeta. rewrite paginate_run.
  change (base_rows (order_by_created_at_desc select_ParserRequestDb) (table w))
    with (sort_desc (scan (table w))).
  split.
  - intros w' pg. destruct (healthy 2 w); [|discriminate].
    destruct (window _ _ _) as [rows|] eqn:Hwin; [|discriminate].
    apply window_Some in Hwin.
    destruct (opt_all _ rows) as [ds|] eqn:Hall; [|discriminate].
    intros [= <- <-]. simpl. subst rows.
    split; [|split; [exact Hall|reflexivity]].
    rewrite (opt_all_created_at _ Hall).
    apply sorted_created_at, StronglySorted_firstn, StronglySorted_skipn,
      sort_desc_sorted.
  - intros Hp Hk Hh Hvalid. rewrite Hh.
    rewrite window_total by nia.
    destruct (opt_all_total DetailParserRequest.model_validate
                (l := firstn (Z.to_nat k)
                        (skipn (Z.to_nat ((p - 1) * k)) (sort_desc (scan (table w))))))
      as [ds Hds].
    + rewrite Forall_forall in *. intros r Hr. apply Hvalid.
      apply (Permutation_in r (scan_perm (table w))).
      apply (Permutation_in r (sort_desc_perm (scan (table w)))).
      assert (Hin : In r (skipn (Z.to_nat ((p - 1) * k)) (sort_desc (scan (table w))))).
      { rewrite <- (firstn_skipn (Z.to_nat k) (skipn _ _)). apply in_or_app. now left. }
      rewrite <- (firstn_skipn (Z.to_nat ((p - 1) * k)) (sort_desc _)).
      apply in_or_app. now right.
    + rewrite Hds. eexists. reflexivity.
Qed.

(** The second page of two of the five sample requests, newest first. *)
Example admin_pagination_second_page :
  map DetailParserRequest.id
    (page_items (@admin_pagination strict_validators heap_engine 2 2) five_requests)
  = [2; 3].
Proof.
  reflexivity.
Qed.

(** *** Covering the table page by page *)

Lemma concat_pages (A : Type) (k m : nat) (l : list A) :
  (List.length l <= m * k)%nat ->
  List.concat (map (fun i => firstn k (skipn (i * k) l)) (seq 0 m)) = l.
Proof.
  revert l. induction m as [|m IH]; intros l Hlen.
  - destruct l; [reflexivity|simpl in Hlen; lia].
  - cbn [seq map List.concat]. rewrite <- seq_shift, map_map.
    rewrite (map_ext _ (fun i => firstn k (skipn (i * k) (skipn k l)))).
    + rewrite IH; [apply firstn_skipn|].
      rewrite length_skipn. simpl in Hlen. lia.
    + intros i. rewrite skipn_skipn. do 2 f_equal. simpl. lia.
Qed.

Lemma page_count_enough (N k : Z) : 1 <= k -> N <= page_count N k * k.
Proof.
  intros Hk. unfold page_count.
  pose proof (Z.div_mod (N + k - 1) k ltac:(lia)) as Hdm.
  pose proof (Z.mod_pos_bound (N + k - 1) k ltac:(lia)) as Hb.
  nia.
Qed.

Lemma opt_all_summary (rows : list Row) :
  opt_all ParserRequest.model_validate rows = Some (map summary rows).
Proof.
  induction rows as [|r rows IH]; simpl; [reflexivity|]. now rewrite IH.
Qed.

Lemma get_pagination_page {E : Engine} (p k : Z) (w : World) :
  1 <= p -> 0 <= k -> healthy 2 w = true ->
  get_pagination p k w
  = (settled 2 (table w) [] w,
     Return (mkPage
               (map summary
                  (firstn (Z.to_nat k)
                     (skipn (Z.to_nat ((p - 1) * k)) (scan (table w)))))
               (Z.of_nat (List.length (table w))) p k)).
Proof.
  intros Hp Hk Hh. unfold get_pagination. cbv zeta.
  rewrite paginate_run, Hh.
  change (base_rows select_ParserRequestDb (table w)) with (scan (table w)).
  rewrite window_total by nia. rewrite opt_all_summary.
  now rewrite (Permutation_length (scan_perm (table w))).
Qed.

(** C8.  Take a table [t] of [N] rows, a page size [k >= 1], and for every
    page number a world in which that page is fetched, all holding the same
    table (no write in between) and a healthy driver.  Then page [p >= 1] of
    [get_pagination] holds the summaries of the rows that offset
    [(p - 1) * k] and limit [k] cut out of the rows of the base query in
    its order, and reports [N] as the total; the pages [1 .. ceil (N / k)]
    put one after the other are the summaries of all rows of the base
    query: a rearrangement of the [N] rows of the table, with no id twice
    when the table has none twice. *)
Theorem get_pagination_covers {E : Engine} (k : Z) (t : list Row)
    (fetch : Z -> World) :
  1 <= k ->
  (forall p : Z, table (fetch p) = t /\ healthy 2 (fetch p) = true) ->
  let N := Z.of_nat (List.length t) in
  let all :=
    List.concat (map (fun p => page_items (get_pagination p k) (fetch p))
              (page_numbers (page_count N k))) in
  (forall p : Z, 1 <= p ->
     result (get_pagination p k) (fetch p)
     = Return (mkPage
                 (map summary
                    (firstn (Z.to_nat k) (skipn (Z.to_nat ((p - 1) * k)) (scan t))))
                 N p k) /\
     table (after (get_pagination p k) (fetch p)) = t) /\
  all = map summary (scan t) /\
  Permutation all (map summary t) /\
  Z.of_nat (List.length all) = N /\
  (NoDup (map ParserRequestDb.id t) -> NoDup (map ParserRequest.id all)).
Proof.
  intros Hk Hfetch N all.
  assert (Hpage : forall p, 1 <= p ->
            get_pagination p k (fetch p)
            = (settled 2 t [] (fetch p),
               Return (mkPage
                         (map summary
                            (firstn (Z.to_nat k)
                               (skipn (Z.to_nat ((p - 1) * k)) (scan t))))
                         N p k))).
  { intros p Hp. destruct (Hfetch p) as [Ht Hh].
    rewrite get_pagination_page by (lia || exact Hh). now rewrite Ht. }
  assert (Hall : all = map summary (scan t)).
  { subst all. unfold page_numbers. rewrite map_map.
    rewrite (map_ext_in _
               (fun i => map summary
                           (firstn (Z.to_nat k) (skipn (i * Z.to_nat k) (scan t))))).
    - rewrite <- (map_map (fun i => firstn (Z.to_nat k) (skipn (i * Z.to_nat k) (scan t)))
                    (map summary)).
      rewrite <- concat_map. f_equal. apply concat_pages.
      rewrite (Permutation_length (scan_perm t)).
      pose proof (@page_count_enough N k Hk) as Hen.
      apply Nat2Z.inj_le. rewrite Nat2Z.inj_mul.
      assert (0 <= page_count N k).
      { unfold page_count. apply Z.div_pos; lia. }
      rewrite !Z2Nat.id by lia. exact Hen.
    - intros i _. unfold page_items, result. rewrite Hpage by lia. simpl.
      do 3 f_equal.
      replace (Z.of_nat i + 1 - 1) with (Z.of_nat i) by lia.
      rewrite Z2Nat.inj_mul by lia. now rewrite Nat2Z.id. }
  split; [|split; [exact Hall|split; [|split]]].
  - intros p Hp. unfold result, after. rewrite Hpage by exact Hp. now split.
  - rewrite Hall. apply Permutation_map, scan_perm.
  - rewrite Hall, length_map, (Permutation_length (scan_perm t)). reflexivity.
  - intros Hnd. rewrite Hall, map_map.
    change (map (fun x => ParserRequest.id (summary x)) (scan t))
      with (map ParserRequestDb.id (scan t)).
    apply (Permutation_NoDup (l := map ParserRequestDb.id t)); [|exact Hnd].
    symmetry. apply Permutation_map, scan_perm.
Qed.

Lemma get_pagination_covers_witness :
  1 <= 2 /\
  (forall p : Z,
      table ((fun _ : Z => five_requests) p) = table five_requests /\
      healthy 2 ((fun _ : Z => five_requests) p) = true) /\
  List.concat
    (map (fun p => page_items (@get_pagination heap_engine p 2) five_requests)
       (page_numbers (page_count 5 2)))
  = map summary (table five_requests).
Proof.
  split; [lia|]. split; [intros p; split; reflexivity|].
  destruct (@get_pagination_covers heap_engine 2 (table five_requests)
              (fun _ => five_requests) ltac:(lia)
              (fun p => conj eq_refl eq_refl))
    as [_ [Hall _]].
  exact Hall.
Defined.

(** ** The terminal-state invariant *)

Lemma row_in_lifecycle_consistent (r : Row) : row_in_lifecycle r -> row_consistent r.
Proof.
  unfold row_in_lifecycle, row_consistent.
  destruct (ParserRequestDb.status r); intros [Hf [Ha Hb]];
    repeat split; intros; try tauto; try discriminate;
    try (destruct H; discriminate); intuition congruence.
Qed.

(** What an operation can do to the table. *)
Lemma perform_table {V : FieldValidators} (op : Op) (w : World) :
  table (perform op w) = table w \/
  match op with
  | OpCreate input_data =>
      table (perform op w) = table w ++ [new_row (next_id w) (clock w) input_data]
  | OpUpdateStatus id_ status =>
      table (perform op w)
      = update_where_id id_ (clock w) (mkValues (Some status) None None None) (table w)
  | OpSaveError id_ finished_at error_message =>
      table (perform op w)
      = update_where_id id_ (clock w)
          (mkValues (Some FAILED) (Some finished_at) (Some error_message) None)
          (table w)
  | OpSaveEmptyResult id_ finished_at message =>
      table (perform op w)
      = update_where_id id_ (clock w)
          (mkValues (Some EMPTY) (Some finished_at) None
             (Some (JObj [("message", JStr message); ("user_stat", JArr [])])))
          (table w)
  | OpSaveSuccessfulResult id_ res finished_at =>
      table (perform op w)
      = update_where_id id_ (clock w)
          (mkValues (Some SUCCESSFUL) (Some finished_at) None
             (Some (ResultData.model_dump res)))
          (table w)
  end.
Proof.
  destruct op; unfold perform, after.
  - rewrite create_run. destruct (healthy 2 w); [right|left].
    + cbv zeta. now destruct (DetailParserRequest.model_validate _).
    + now destruct (healthy 1 w).
  - rewrite update_status_run. destruct (healthy 2 w); [right|now left].
    cbv zeta. destruct (filter _ _) as [|obj [|obj' rest]]; try reflexivity.
    now destruct (DetailParserRequest.model_validate obj).
  - rewrite save_error_run. destruct (healthy 2 w); [now right|now left].
  - rewrite save_empty_result_run. destruct (healthy 2 w); [now right|now left].
  - rewrite save_successful_result_run. destruct (healthy 2 w); [now right|now left].
Qed.

Lemma update_where_id_in_lifecycle (id_ now : Z) (v : Values) (t : list Row) :
  (forall r, row_in_lifecycle r ->
             non_terminal (ParserRequestDb.status r) = true ->
             row_in_lifecycle (assign now v r)) ->
  Forall row_in_lifecycle t ->
  forallb
    (fun r => if has_id id_ r then non_terminal (ParserRequestDb.status r) else true)
    t = true ->
  Forall row_in_lifecycle (update_where_id id_ now v t).
Proof.
  intros Hassign. induction 1 as [|r t Hr _ IH]; simpl; intros Hopen;
    [constructor|].
  apply andb_true_iff in Hopen as [Hopen_r Hopen_t].
  constructor; [|now apply IH].
  destruct (has_id id_ r); [now apply Hassign|exact Hr].
Qed.

Lemma open_row_fields (r : Row) :
  row_in_lifecycle r ->
  non_terminal (ParserRequestDb.status r) = true ->
  ParserRequestDb.finished_at r = None /\
  ParserRequestDb.result_data r = None /\
  ParserRequestDb.error_message r = None.
Proof.
  unfold row_in_lifecycle.
  destruct (ParserRequestDb.status r); simpl; intros H Hnt;
    try discriminate; exact H.
Qed.

Lemma perform_in_lifecycle {V : FieldValidators} (op : Op) (w : World) :
  Forall row_in_lifecycle (table w) ->
  follows_lifecycle op w = true ->
  Forall row_in_lifecycle (table (perform op w)).
Proof.
  intros Hrows Hguard.
  destruct (perform_table op w) as [Hsame|Hchg]; [now rewrite Hsame|].
  destruct op as [j|id_ st|id_ fin msg|id_ fin msg|id_ res fin];
    simpl in Hguard; rewrite Hchg.
  - apply Forall_app. split; [exact Hrows|].
    repeat constructor.
  - apply andb_true_iff in Hguard as [Hst Hopen].
    apply update_where_id_in_lifecycle; [|exact Hrows|exact Hopen].
    intros r Hr Hnt. destruct (open_row_fields r Hr Hnt) as [Hf [Hres Herr]].
    unfold row_in_lifecycle, assign. simpl. rewrite Hf, Hres, Herr.
    destruct st; try discriminate; repeat split.
  - apply update_where_id_in_lifecycle; [|exact Hrows|exact Hguard].
    intros r Hr Hnt. destruct (open_row_fields r Hr Hnt) as [Hf [Hres Herr]].
    unfold row_in_lifecycle, assign. simpl. rewrite Hres.
    repeat split; discriminate.
  - apply update_where_id_in_lifecycle; [|exact Hrows|exact Hguard].
    intros r Hr Hnt. destruct (open_row_fields r Hr Hnt) as [Hf [Hres Herr]].
    unfold row_in_lifecycle, assign. simpl. rewrite Herr.
    repeat split; discriminate.
  - apply update_where_id_in_lifecycle; [|exact Hrows|exact Hguard].
    intros r Hr Hnt. destruct (open_row_fields r Hr Hnt) as [Hf [Hres Herr]].
    unfold row_in_lifecycle, assign. simpl. rewrite Herr.
    repeat split; discriminate.
Qed.

Lemma run_in_lifecycle {V : FieldValidators} (calls : list Call) (w : World) :
  Forall row_in_lifecycle (table w) ->
  lifecycle_respected calls w = true ->
  Forall row_in_lifecycle (table (run calls w)).
Proof.
  revert w. induction calls as [|c calls IH]; intros w Hrows Hresp; [exact Hrows|].
  simpl in Hresp. apply andb_true_iff in Hresp as [Hguard Hrest].
  unfold run. simpl. apply IH; [|exact Hrest].
  unfold run_call. apply perform_in_lifecycle; [exact Hrows|].
  destruct (call_op c); exact Hguard.
Qed.

(** C2, as the code has it.  From an empty table, along every sequence of
    store operations that follows the lifecycle (an [update_status] only
    with [PENDING] or [PROCESSING] as the new status and only on a request
    that is still [PENDING] or [PROCESSING]; a terminal save only on a
    request that is still [PENDING] or [PROCESSING]), whatever the clock and
    the driver do, every row keeps the invariant: [finished_at] is null
    exactly for [PENDING] and [PROCESSING], [SUCCESSFUL] and [EMPTY] carry a
    result and no error message, [FAILED] carries an error message and no
    result. *)
Theorem lifecycle_keeps_rows_consistent {V : FieldValidators} (calls : list Call)
    (w : World) :
  table w = [] ->
  lifecycle_respected calls w = true ->
  Forall row_consistent (table (run calls w)).
Proof.
  intros Hempty Hresp.
  eapply Forall_impl; [apply row_in_lifecycle_consistent|].
  apply run_in_lifecycle; [|exact Hresp].
  rewrite Hempty. constructor.
Qed.

Lemma lifecycle_keeps_rows_consistent_witness :
  table empty_world = [] /\
  @lifecycle_respected strict_validators two_lifecycles empty_world = true /\
  map ParserRequestDb.status (table (@run strict_validators two_lifecycles empty_world))
  = [SUCCESSFUL; FAILED] /\
  Forall row_consistent (table (@run strict_validators two_lifecycles empty_world)).
Proof.
  split; [reflexivity|]. split; [reflexivity|]. split; [reflexivity|].
  apply (@lifecycle_keeps_rows_consistent strict_validators two_lifecycles
           empty_world); reflexivity.
Defined.

(** C2 as stated does not hold: [update_status] overwrites the status
    whatever it was, so a request marked [SUCCESSFUL] by it alone has no
    finish time and no result. *)
Lemma update_status_breaks_invariant :
  exists r : Row,
    In r (table (@run strict_validators premature_success empty_world)) /\
    ParserRequestDb.status r = SUCCESSFUL /\
    ParserRequestDb.finished_at r = None /\
    ParserRequestDb.result_data r = None /\
    ~ row_consistent r.
Proof.
  exists (ParserRequestDb.Build 1 100 110 SUCCESSFUL simple_payload None None None).
  split; [now left|]. repeat split.
  unfold row_consistent. simpl. intros [[Hnull _] _].
  destruct (Hnull eq_refl); discriminate.
Qed.

(** * Further properties of the store *)

(** ** Lookups *)

Lemma healthy_3_split (w : World) :
  healthy 3 w = true ->
  healthy 2 w = true /\
  forall (t : list Row) (msgs : list string), healthy 1 (settled 2 t msgs w) = true.
Proof.
  destruct w as [t n c f l]. unfold healthy, settled. simpl.
  destruct f as [|[] [|[] [|[] f]]]; simpl; intros H; try discriminate; auto.
Qed.

Lemma filter_scan_unique {E : Engine} (id_ : Z) (t : list Row) (r : Row) :
  filter (has_id id_) t = [r] -> filter (has_id id_) (scan t) = [r].
Proof.
  intros Hone. apply Permutation_length_1_inv. rewrite <- Hone.
  symmetry. apply filter_Permutation, scan_perm.
Qed.

Lemma filter_scan_unknown {E : Engine} (id_ : Z) (t : list Row) :
  existsb (has_id id_) t = false -> filter (has_id id_) (scan t) = [].
Proof.
  intros Hun. apply Permutation_nil.
  rewrite <- (filter_has_id_unknown _ _ Hun).
  symmetry. apply filter_Permutation, scan_perm.
Qed.

(** A lookup by an id that exactly one row carries validates that row. *)
Lemma get_detail_known {V : FieldValidators} {E : Engine} (id_ : Z) (w : World)
    (r : Row) :
  filter (has_id id_) (table w) = [r] ->
  healthy 1 w = true ->
  result (get_detail id_) w
  = match DetailParserRequest.model_validate r with
    | Some d => Return (Some d)
    | None => Raise ValidationError
    end.
Proof.
  intros Hone Hh. unfold result. rewrite get_detail_run, Hh.
  rewrite (filter_scan_unique _ _ Hone).
  now destruct (DetailParserRequest.model_validate r).
Qed.

(** X1.  [get_detail] only reads: whatever the driver does, the table, the
    id sequence, the clock and the log are as before.  For an id that no
    row carries it returns [None] without raising; a failure of the driver
    is not caught and reaches the caller as a [DBAPIError]. *)
Theorem get_detail_reads_only {V : FieldValidators} {E : Engine} (id_ : Z)
    (w : World) :
  table (after (get_detail id_) w) = table w /\
  next_id (after (get_detail id_) w) = next_id w /\
  clock (after (get_detail id_) w) = clock w /\
  log (after (get_detail id_) w) = log w /\
  (healthy 1 w = true -> known id_ w = false ->
   result (get_detail id_) w = Return None) /\
  (healthy 1 w = false -> result (get_detail id_) w = Raise DBAPIError).
Proof.
  unfold after, result, known. rewrite get_detail_run.
  assert (Hw : forall o : outcome (option DetailParserRequest.t),
             let w' := fst (settled 1 (table w) [] w, o) in
             table w' = table w /\ next_id w' = next_id w /\
             clock w' = clock w /\ log w' = log w).
  { intros o. simpl. repeat split. apply app_nil_r. }
  destruct (healthy 1 w).
  - destruct (filter (has_id id_) (scan (table w))) as [|obj rest] eqn:Hf.
    + destruct (Hw (Return None)) as [H1 [H2 [H3 H4]]].
      repeat split; auto; discriminate.
    + assert (Hk : existsb (has_id id_) (table w) = false -> False).
      { intros Hun. rewrite (filter_scan_unknown _ _ Hun) in Hf. discriminate. }
      destruct (DetailParserRequest.model_validate obj) as [d|].
      * destruct (Hw (Return (Some d))) as [H1 [H2 [H3 H4]]].
        repeat split; auto; try discriminate. intros _ Hun. now destruct Hk.
      * destruct (Hw (Raise ValidationError)) as [H1 [H2 [H3 H4]]].
        repeat split; auto; try discriminate. intros _ Hun. now destruct Hk.
  - destruct (Hw (Raise DBAPIError)) as [H1 [H2 [H3 H4]]].
    repeat split; auto; discriminate.
Qed.

(** X2.  What [create] returns is what [get_detail] finds: for a payload
    that validates, an id sequence that is ahead of the table and a healthy
    driver, a [get_detail] of the id of the record [create] returned yields
    that same record. *)
Theorem create_then_get_detail {V : FieldValidators} {E : Engine} (payload : json)
    (v : InputData.t) (w : World) :
  InputData.model_validate payload = Some v ->
  healthy 3 w = true ->
  known (next_id w) w = false ->
  exists d : DetailParserRequest.t,
    result (create payload) w = Return (Some d) /\
    DetailParserRequest.id d = next_id w /\
    result (get_detail (DetailParserRequest.id d)) (after (create payload) w)
    = Return (Some d).
Proof.
  intros Hval Hh Hfresh. destruct (healthy_3_split w Hh) as [Hh2 Hh1].
  pose proof (new_row_validates payload (next_id w) (clock w) Hval) as Hrow.
  exists (DetailParserRequest.Build (next_id w) (clock w) (clock w) PENDING v
            None None None).
  unfold after. unfold result at 1. rewrite create_run, Hh2. cbv zeta.
  rewrite Hrow. simpl fst. simpl snd.
  split; [reflexivity|]. split; [reflexivity|].
  rewrite (@get_detail_known V E _ _ (new_row (next_id w) (clock w) payload)).
  - now rewrite Hrow.
  - simpl. rewrite filter_app, (filter_has_id_unknown _ _ Hfresh). simpl.
    unfold has_id. simpl. now rewrite Z.eqb_refl.
  - apply (Hh1 (table w ++ [new_row (next_id w) (clock w) payload]) []).
Qed.

Lemma create_then_get_detail_witness :
  @InputData.model_validate strict_validators posts_payload
  = Some (InputData.ParsePosts
            (ParsePostsVkInputData.Build "https://vk.com/example" 50 10)) /\
  healthy 3 one_request = true /\
  known (next_id one_request) one_request = false /\
  exists d : DetailParserRequest.t,
    result (@create strict_validators posts_payload) one_request = Return (Some d) /\
    DetailParserRequest.id d = 2 /\
    result (@get_detail strict_validators heap_engine (DetailParserRequest.id d))
      (after (@create strict_validators posts_payload) one_request)
    = Return (Some d).
Proof.
  split; [reflexivity|]. split; [reflexivity|]. split; [reflexivity|].
  exact (@create_then_get_detail strict_validators heap_engine posts_payload _
           one_request eq_refl eq_refl eq_refl).
Defined.

(** ** Writing, then reading *)

(** How an update shows in the detail record of the row. *)
Lemma model_validate_assign {V : FieldValidators} (now : Z) (v : Values) (r : Row)
    (d : DetailParserRequest.t) (rd : option ResultData.t) :
  DetailParserRequest.model_validate r = Some d ->
  match set_result_data v with
  | None => rd = DetailParserRequest.result_data d
  | Some j => DetailParserRequest.validate_result_data (Some j) = Some rd
  end ->
  DetailParserRequest.model_validate (assign now v r)
  = Some (DetailParserRequest.Build
            (DetailParserRequest.id d) (DetailParserRequest.created_at d) now
            (or_keep (set_status v) (DetailParserRequest.status d))
            (DetailParserRequest.input_data d) rd
            (or_keep_opt (set_finished_at v) (DetailParserRequest.finished_at d))
            (or_keep_opt (set_error_message v) (DetailParserRequest.error_message d))).
Proof.
  intros Hd Hrd. unfold DetailParserRequest.model_validate in *.
  cbn [assign ParserRequestDb.id ParserRequestDb.created_at
       ParserRequestDb.updated_at ParserRequestDb.status
       ParserRequestDb.input_data ParserRequestDb.result_data
       ParserRequestDb.finished_at ParserRequestDb.error_message].
  destruct (InputData.model_validate (ParserRequestDb.input_data r)) as [i|];
    cbn [opt_bind] in *; [|discriminate].
  destruct (DetailParserRequest.validate_result_data (ParserRequestDb.result_data r))
    as [rd0|] eqn:Hrd0; cbn [opt_bind] in Hd; [|discriminate].
  injection Hd as <-.
  cbn [DetailParserRequest.id DetailParserRequest.created_at
       DetailParserRequest.status DetailParserRequest.input_data
       DetailParserRequest.result_data DetailParserRequest.finished_at
       DetailParserRequest.error_message] in *.
  destruct (set_result_data v) as [j|]; cbn [or_keep_opt].
  - rewrite Hrd. reflexivity.
  - rewrite Hrd0, Hrd. reflexivity.
Qed.

Lemma get_detail_after_write {V : FieldValidators} {E : Engine} (id_ : Z)
    (v : Values) (w : World) (r : Row) :
  filter (has_id id_) (table w) = [r] ->
  healthy 3 w = true ->
  result (get_detail id_)
    (settled 2 (update_where_id id_ (clock w) v (table w)) [] w)
  = match DetailParserRequest.model_validate (assign (clock w) v r) with
    | Some d => Return (Some d)
    | None => Raise ValidationError
    end.
Proof.
  intros Hone Hh. destruct (healthy_3_split w Hh) as [_ Hh1].
  apply get_detail_known; [|apply Hh1].
  simpl. now rewrite filter_update_where_id, Hone.
Qed.

Lemma update_status_after {V : FieldValidators} (id_ : Z) (st : RequestStatus)
    (w : World) :
  healthy 2 w = true ->
  after (update_status id_ st) w
  = settled 2
      (update_where_id id_ (clock w) (mkValues (Some st) None None None) (table w))
      [] w.
Proof.
  intros Hh. unfold after. rewrite update_status_run, Hh. cbv zeta.
  destruct (filter _ _) as [|obj [|obj' rest]]; try reflexivity.
  now destruct (DetailParserRequest.model_validate obj).
Qed.

(** X3.  [update_status] on the one row of an id, the row validating and
    the driver healthy, returns the detail record of the row with the new
    status and the clock as [updated_at], everything else as it was; a
    [get_detail] of the id right after yields that same record. *)
Theorem update_status_then_get_detail {V : FieldValidators} {E : Engine}
    (id_ : Z) (st : RequestStatus) (w : World) (r : Row)
    (d : DetailParserRequest.t) :
  filter (has_id id_) (table w) = [r] ->
  DetailParserRequest.model_validate r = Some d ->
  healthy 3 w = true ->
  let d' :=
    DetailParserRequest.Build
      (ParserRequestDb.id r) (ParserRequestDb.created_at r) (clock w) st
      (DetailParserRequest.input_data d) (DetailParserRequest.result_data d)
      (ParserRequestDb.finished_at r) (ParserRequestDb.error_message r) in
  result (update_status id_ st) w = Return (Some d') /\
  result (get_detail id_) (after (update_status id_ st) w) = Return (Some d').
Proof.
  intros Hone Hval Hh d'. destruct (healthy_3_split w Hh) as [Hh2 _].
  assert (Hd : DetailParserRequest.model_validate
                 (assign (clock w) (mkValues (Some st) None None None) r)
               = Some d').
  { rewrite (@model_validate_assign V (clock w) (mkValues (Some st) None None None)
               r d (DetailParserRequest.result_data d) Hval eq_refl).
    subst d'. simpl. unfold DetailParserRequest.model_validate in Hval.
    destruct (InputData.model_validate _); simpl in Hval; [|discriminate].
    destruct (DetailParserRequest.validate_result_data
              (ParserRequestDb.result_data r)); simpl in Hval; [|discriminate].
    now injection Hval as <-. }
  split.
  - unfold result. rewrite update_status_run, Hh2. cbv zeta.
    rewrite filter_update_where_id, Hone. simpl. now rewrite Hd.
  - rewrite update_status_after by exact Hh2.
    rewrite (@get_detail_after_write V E id_ _ w r Hone Hh). now rewrite Hd.
Qed.

Lemma update_status_then_get_detail_witness :
  filter (has_id 1) (table one_request) = [new_row 1 100 simple_payload] /\
  healthy 3 one_request = true /\
  result (@get_detail strict_validators heap_engine 1)
    (after (@update_status strict_validators 1 PROCESSING) one_request)
  = Return (Some (DetailParserRequest.Build 1 100 105 PROCESSING
                    (InputData.Simple
                       (SimpleVkInputData.Build "https://vk.com/example" 10))
                    None None None)).
Proof.
  split; [reflexivity|]. split; [reflexivity|].
  exact (proj2 (@update_status_then_get_detail strict_validators heap_engine
                  1 PROCESSING one_request _ _ eq_refl eq_refl eq_refl)).
Defined.

(** The typed columns of a row pass into its detail record unchanged. *)
Lemma detail_columns {V : FieldValidators} (r : Row) (d : DetailParserRequest.t) :
  DetailParserRequest.model_validate r = Some d ->
  DetailParserRequest.id d = ParserRequestDb.id r /\
  DetailParserRequest.created_at d = ParserRequestDb.created_at r /\
  DetailParserRequest.updated_at d = ParserRequestDb.updated_at r /\
  DetailParserRequest.status d = ParserRequestDb.status r /\
  DetailParserRequest.finished_at d = ParserRequestDb.finished_at r /\
  DetailParserRequest.error_message d = ParserRequestDb.error_message r.
Proof.
  unfold DetailParserRequest.model_validate.
  destruct (InputData.model_validate _); simpl; [|discriminate].
  destruct (DetailParserRequest.validate_result_data
              (ParserRequestDb.result_data r)); simpl; [|discriminate].
  intros [= <-]. simpl. repeat split.
Qed.

Lemma user_stats_dump_validate {V : FieldValidators} (l : list UserStat.t) :
  plain_scalars V ->
  opt_all UserStat.model_validate (map UserStat.model_dump l) = Some l.
Proof.
  intros [Hint _]. induction l as [|[i c] l IH]; [reflexivity|].
  cbn [map opt_all]. rewrite IH.
  unfold UserStat.model_validate, UserStat.model_dump. simpl.
  now rewrite !Hint.
Qed.

Lemma result_data_dump_validate {V : FieldValidators} (res : ResultData.t) :
  plain_scalars V ->
  ResultData.model_validate (ResultData.model_dump res) = Some res.
Proof.
  intros Hplain. destruct res as [m us].
  unfold ResultData.model_validate, ResultData.model_dump. simpl.
  rewrite (proj2 Hplain m). simpl.
  now rewrite (user_stats_dump_validate us Hplain).
Qed.

Lemma terminal_save_after (id_ : Z) (v : Values) (msg : string) (w : World) :
  healthy 2 w = true ->
  after
    (inject_session
       (try_except (update_execute id_ v ;; commit) DBAPIError (log_warning msg)))
    w
  = settled 2 (update_where_id id_ (clock w) v (table w)) [] w.
Proof.
  intros Hh. unfold after. now rewrite best_effort_run, Hh.
Qed.

(** X4.  A result saved is the result read back: after
    [save_successful_result] on the one row of an id (the row validating,
    the driver healthy, the validators taking JSON numbers and strings as
    they are), [get_detail] yields the record of the row with status
    [SUCCESSFUL], the given result, the given finish time and the clock as
    [updated_at]; the input and the error message are as before. *)
Theorem save_successful_result_then_get_detail {V : FieldValidators} {E : Engine}
    (id_ : Z) (res : ResultData.t) (finished_at : Z) (w : World) (r : Row)
    (d : DetailParserRequest.t) :
  plain_scalars V ->
  filter (has_id id_) (table w) = [r] ->
  DetailParserRequest.model_validate r = Some d ->
  healthy 3 w = true ->
  result (get_detail id_) (after (save_successful_result id_ res finished_at) w)
  = Return (Some (DetailParserRequest.Build
                    (ParserRequestDb.id r) (ParserRequestDb.created_at r) (clock w)
                    SUCCESSFUL (DetailParserRequest.input_data d) (Some res)
                    (Some finished_at) (ParserRequestDb.error_message r))).
Proof.
  intros Hplain Hone Hval Hh. destruct (healthy_3_split w Hh) as [Hh2 _].
  unfold save_successful_result. cbv zeta. rewrite terminal_save_after by exact Hh2.
  rewrite (@get_detail_after_write V E id_ _ w r Hone Hh).
  rewrite (@model_validate_assign V (clock w) _ r d (Some res) Hval).
  - destruct (detail_columns r Hval) as [-> [-> [_ [_ [_ ->]]]]]. reflexivity.
  - simpl. now rewrite (result_data_dump_validate res Hplain).
Qed.

Lemma save_successful_result_then_get_detail_witness :
  plain_scalars strict_validators /\
  filter (has_id 1) (table one_request) = [new_row 1 100 simple_payload] /\
  healthy 3 one_request = true /\
  result (@get_detail strict_validators heap_engine 1)
    (after (save_successful_result 1 ok_result 130) one_request)
  = Return (Some (DetailParserRequest.Build 1 100 105 SUCCESSFUL
                    (InputData.Simple
                       (SimpleVkInputData.Build "https://vk.com/example" 10))
                    (Some ok_result) (Some 130) None)).
Proof.
  assert (Hplain : plain_scalars strict_validators) by (split; reflexivity).
  split; [exact Hplain|]. split; [reflexivity|]. split; [reflexivity|].
  exact (@save_successful_result_then_get_detail strict_validators heap_engine
           1 ok_result 130 one_request _ _ Hplain eq_refl eq_refl eq_refl).
Defined.

(** X5.  After [save_error] on the one row of an id (the row validating,
    the driver healthy) [get_detail] yields the record of the row with
    status [FAILED], the given finish time and error message and the clock
    as [updated_at]; a result the row already had stays in place. *)
Theorem save_error_then_get_detail {V : FieldValidators} {E : Engine}
    (id_ finished_at : Z) (error_message : string) (w : World) (r : Row)
    (d : DetailParserRequest.t) :
  filter (has_id id_) (table w) = [r] ->
  DetailParserRequest.model_validate r = Some d ->
  healthy 3 w = true ->
  result (get_detail id_) (after (save_error id_ finished_at error_message) w)
  = Return (Some (DetailParserRequest.Build
                    (ParserRequestDb.id r) (ParserRequestDb.created_at r) (clock w)
                    FAILED (DetailParserRequest.input_data d)
                    (DetailParserRequest.result_data d)
                    (Some finished_at) (Some error_message))).
Proof.
  intros Hone Hval Hh. destruct (healthy_3_split w Hh) as [Hh2 _].
  unfold save_error. cbv zeta. rewrite terminal_save_after by exact Hh2.
  rewrite (@get_detail_after_write V E id_ _ w r Hone Hh).
  rewrite (@model_validate_assign V (clock w)
             (mkValues (Some FAILED) (Some finished_at) (Some error_message) None)
             r d (DetailParserRequest.result_data d) Hval eq_refl).
  destruct (detail_columns r Hval) as [-> [-> _]]. reflexivity.
Qed.

Lemma save_error_then_get_detail_witness :
  filter (has_id 1) (table one_finished)
  = [ParserRequestDb.Build 1 100 130 SUCCESSFUL simple_payload
       (Some (ResultData.model_dump ok_result)) (Some 130) None] /\
  healthy 3 one_finished = true /\
  result (@get_detail strict_validators heap_engine 1)
    (after (save_error 1 150 "boom") one_finished)
  = Return (Some (DetailParserRequest.Build 1 100 140 FAILED
                    (InputData.Simple
                       (SimpleVkInputData.Build "https://vk.com/example" 10))
                    (Some ok_result) (Some 150) (Some "boom"))).
Proof.
  split; [reflexivity|]. split; [reflexivity|].
  exact (@save_error_then_get_detail strict_validators heap_engine
           1 150 "boom" one_finished _ _ eq_refl eq_refl eq_refl).
Defined.

(** X6.  After [save_empty_result] on the one row of an id (the row
    validating, the driver healthy, the validators taking JSON strings as
    they are) [get_detail] yields the record of the row with status
    [EMPTY], the given finish time, and a result made of the given message
    and no user statistics. *)
Theorem save_empty_result_then_get_detail {V : FieldValidators} {E : Engine}
    (id_ finished_at : Z) (message : string) (w : World) (r : Row)
    (d : DetailParserRequest.t) :
  plain_scalars V ->
  filter (has_id id_) (table w) = [r] ->
  DetailParserRequest.model_validate r = Some d ->
  healthy 3 w = true ->
  result (get_detail id_) (after (save_empty_result id_ finished_at message) w)
  = Return (Some (DetailParserRequest.Build
                    (ParserRequestDb.id r) (ParserRequestDb.created_at r) (clock w)
                    EMPTY (DetailParserRequest.input_data d)
                    (Some (ResultData.Build message []))
                    (Some finished_at) (ParserRequestDb.error_message r))).
Proof.
  intros Hplain Hone Hval Hh. destruct (healthy_3_split w Hh) as [Hh2 _].
  unfold save_empty_result. cbv zeta. rewrite terminal_save_after by exact Hh2.
  rewrite (@get_detail_after_write V E id_ _ w r Hone Hh).
  rewrite (@model_validate_assign V (clock w) _ r d
             (Some (ResultData.Build message [])) Hval).
  - destruct (detail_columns r Hval) as [-> [-> [_ [_ [_ ->]]]]]. reflexivity.
  - simpl. unfold ResultData.model_validate. simpl.
    now rewrite (proj2 Hplain message).
Qed.

Lemma save_empty_result_then_get_detail_witness :
  plain_scalars strict_validators /\
  filter (has_id 1) (table one_request) = [new_row 1 100 simple_payload] /\
  healthy 3 one_request = true /\
  result (@get_detail strict_validators heap_engine 1)
    (after (save_empty_result 1 130 "no posts") one_request)
  = Return (Some (DetailParserRequest.Build 1 100 105 EMPTY
                    (InputData.Simple
                       (SimpleVkInputData.Build "https://vk.com/example" 10))
                    (Some (ResultData.Build "no posts" []))
                    (Some 130) None)).
Proof.
  assert (Hplain : plain_scalars strict_validators) by (split; reflexivity).
  split; [exact Hplain|]. split; [reflexivity|]. split; [reflexivity|].
  exact (@save_empty_result_then_get_detail strict_validators heap_engine
           1 130 "no posts" one_request _ _ Hplain eq_refl eq_refl eq_refl).
Defined.

(** ** Failures and validation *)

(** X7.  No writing operation writes in part: when the driver fails at the
    statement or at the commit, [create], [update_status] and the three
    terminal saves all return normally ([None], or nothing for a save),
    leave the table as it was, and log exactly one warning. *)
Theorem failed_write_changes_nothing {V : FieldValidators} (op : Op) (w : World) :
  healthy 2 w = false ->
  table (perform op w) = table w /\
  log (perform op w) = log w ++ [failure_message op] /\
  match op with
  | OpCreate input_data => result (create input_data) w = Return None
  | OpUpdateStatus id_ status => result (update_status id_ status) w = Return None
  | OpSaveError id_ finished_at error_message =>
      result (save_error id_ finished_at error_message) w = Return tt
  | OpSaveEmptyResult id_ finished_at message =>
      result (save_empty_result id_ finished_at message) w = Return tt
  | OpSaveSuccessfulResult id_ res finished_at =>
      result (save_successful_result id_ res finished_at) w = Return tt
  end.
Proof.
  intros Hh. destruct op; unfold perform, after, result;
    rewrite ?create_run, ?update_status_run, ?save_error_run,
      ?save_empty_result_run, ?save_successful_result_run, Hh;
    destruct (healthy 1 w); simpl; repeat split.
Qed.

Lemma failed_write_changes_nothing_witness :
  healthy 2 one_request_failing = false /\
  table (@perform strict_validators (OpUpdateStatus 1 PROCESSING) one_request_failing)
  = table one_request_failing /\
  log (@perform strict_validators (OpUpdateStatus 1 PROCESSING) one_request_failing)
  = ["Error updating: %s"].
Proof.
  split; [reflexivity|].
  destruct (@failed_write_changes_nothing strict_validators
              (OpUpdateStatus 1 PROCESSING) one_request_failing eq_refl)
    as [Ht [Hl _]].
  split; [exact Ht|exact Hl].
Defined.

(** X8.  [create] does not validate what it stores: for a payload that the
    input union rejects and a healthy driver, the row is inserted and
    committed with the payload as given, and only then does building the
    returned record raise a [ValidationError]. *)
Theorem create_commits_before_validating {V : FieldValidators} (payload : json)
    (w : World) :
  InputData.model_validate payload = None ->
  healthy 2 w = true ->
  result (create payload) w = Raise ValidationError /\
  table (after (create payload) w)
  = table w ++ [ParserRequestDb.Build (next_id w) (clock w) (clock w) PENDING
                  payload None None None].
Proof.
  intros Hval Hh. unfold result, after. rewrite create_run, Hh. cbv zeta.
  unfold DetailParserRequest.model_validate, new_row. simpl.
  rewrite Hval. simpl. split; reflexivity.
Qed.

Lemma create_commits_before_validating_witness :
  @InputData.model_validate strict_validators untagged_payload = None /\
  healthy 2 empty_world = true /\
  result (@create strict_validators untagged_payload) empty_world
  = Raise ValidationError /\
  table (after (@create strict_validators untagged_payload) empty_world)
  = [new_row 1 100 untagged_payload].
Proof.
  split; [reflexivity|]. split; [reflexivity|].
  exact (@create_commits_before_validating strict_validators untagged_payload
           empty_world eq_refl eq_refl).
Defined.

Lemma model_validate_assign_status_None {V : FieldValidators} (now : Z)
    (st : RequestStatus) (r : Row) :
  DetailParserRequest.model_validate r = None ->
  DetailParserRequest.model_validate (assign now (mkValues (Some st) None None None) r)
  = None.
Proof.
  unfold DetailParserRequest.model_validate. simpl.
  destruct (InputData.model_validate _); simpl; [|reflexivity].
  destruct (DetailParserRequest.validate_result_data
              (ParserRequestDb.result_data r)); simpl; [discriminate|reflexivity].
Qed.

(** X9.  [update_status] commits before it validates: on the one row of an
    id, when that row does not validate as a detail record and the driver
    is healthy, the call raises a [ValidationError] and the new status is
    in the table all the same. *)
Theorem update_status_commits_before_validating {V : FieldValidators} (id_ : Z)
    (st : RequestStatus) (w : World) (r : Row) :
  filter (has_id id_) (table w) = [r] ->
  DetailParserRequest.model_validate r = None ->
  healthy 2 w = true ->
  result (update_status id_ st) w = Raise ValidationError /\
  filter (has_id id_) (table (after (update_status id_ st) w))
  = [ParserRequestDb.Build
       (ParserRequestDb.id r) (ParserRequestDb.created_at r) (clock w) st
       (ParserRequestDb.input_data r) (ParserRequestDb.result_data r)
       (ParserRequestDb.finished_at r) (ParserRequestDb.error_message r)].
Proof.
  intros Hone Hval Hh. rewrite update_status_after by exact Hh.
  unfold result. rewrite update_status_run, Hh. cbv zeta.
  simpl table. rewrite filter_update_where_id, Hone. simpl.
  rewrite (model_validate_assign_status_None (clock w) st r Hval).
  split; reflexivity.
Qed.

Lemma update_status_commits_before_validating_witness :
  filter (has_id 1) (table (mkWorld [new_row 1 100 untagged_payload] 2 105 [] []))
  = [new_row 1 100 untagged_payload] /\
  result (@update_status strict_validators 1 PROCESSING)
    (mkWorld [new_row 1 100 untagged_payload] 2 105 [] [])
  = Raise ValidationError /\
  map ParserRequestDb.status
    (table (after (@update_status strict_validators 1 PROCESSING)
              (mkWorld [new_row 1 100 untagged_payload] 2 105 [] [])))
  = [PROCESSING].
Proof.
  split; [reflexivity|].
  destruct (@update_status_commits_before_validating strict_validators 1 PROCESSING
              (mkWorld [new_row 1 100 untagged_payload] 2 105 [] [])
              (new_row 1 100 untagged_payload) eq_refl eq_refl eq_refl)
    as [Hres _].
  split; [exact Hres|reflexivity].
Defined.

(** ** What every sequence of operations keeps *)

Lemma same_identity_refl (r : Row) : same_identity r r.
Proof.
  repeat split.
Qed.

Lemma Forall2_same_identity_refl (t : list Row) : Forall2 same_identity t t.
Proof.
  induction t; constructor; [apply same_identity_refl|assumption].
Qed.

Lemma Forall2_same_identity_trans (t1 t2 t3 : list Row) :
  Forall2 same_identity t1 t2 -> Forall2 same_identity t2 t3 ->
  Forall2 same_identity t1 t3.
Proof.
  intros H12. revert t3.
  induction H12 as [|a b t1 t2 [Hi [Hc Hd]] _ IH]; intros t3 H23;
    inversion H23 as [|b' c t2' t3' [Hi' [Hc' Hd']] Hrest]; subst;
    constructor; [|now apply IH].
  repeat split; congruence.
Qed.

Lemma update_where_id_same_identity (id_ now : Z) (v : Values) (t : list Row) :
  Forall2 same_identity t (update_where_id id_ now v t).
Proof.
  induction t as [|r t IH]; simpl; constructor; [|exact IH].
  destruct (has_id id_ r); repeat split.
Qed.

Lemma perform_keeps_identity {V : FieldValidators} (op : Op) (w : World) :
  exists kept added : list Row,
    table (perform op w) = kept ++ added /\
    Forall2 same_identity (table w) kept.
Proof.
  destruct (perform_table op w) as [Hsame|Hchg].
  - exists (table w), []. rewrite Hsame, app_nil_r.
    split; [reflexivity|apply Forall2_same_identity_refl].
  - destruct op; rewrite Hchg.
    + eexists (table w), _. split; [reflexivity|apply Forall2_same_identity_refl].
    + eexists _, []. rewrite app_nil_r.
      split; [reflexivity|apply update_where_id_same_identity].
    + eexists _, []. rewrite app_nil_r.
      split; [reflexivity|apply update_where_id_same_identity].
    + eexists _, []. rewrite app_nil_r.
      split; [reflexivity|apply update_where_id_same_identity].
    + eexists _, []. rewrite app_nil_r.
      split; [reflexivity|apply update_where_id_same_identity].
Qed.

(** X10.  No operation of the store deletes or reorders rows or touches
    what identifies a request: after any sequence of [create],
    [update_status] and terminal saves, whatever the clock and the driver
    do, the table starts with as many rows as it had, in the same order,
    each with the id, the creation time and the input (and so the
    discriminator) it had; rows are only added behind them. *)
Theorem run_keeps_identity {V : FieldValidators} (calls : list Call) (w : World) :
  exists kept added : list Row,
    table (run calls w) = kept ++ added /\
    Forall2 same_identity (table w) kept.
Proof.
  revert w. induction calls as [|c calls IH]; intros w.
  - exists (table w), []. rewrite app_nil_r.
    split; [reflexivity|apply Forall2_same_identity_refl].
  - unfold run. simpl. fold (run calls (run_call w c)).
    destruct (IH (run_call w c)) as [kept1 [added1 [Htab1 Hsame1]]].
    unfold run_call in Hsame1 at 1.
    destruct (perform_keeps_identity (call_op c)
                (mkWorld (table w) (next_id w) (call_now c) (call_faults c) (log w)))
      as [kept0 [added0 [Htab0 Hsame0]]].
    simpl in Hsame0. rewrite Htab0 in Hsame1.
    apply Forall2_app_inv_l in Hsame1 as [k1a [k1b [Ha [Hb ->]]]].
    exists k1a, (k1b ++ added1). rewrite Htab1, app_assoc.
    split; [reflexivity|].
    now apply Forall2_same_identity_trans with kept0.
Qed.

Lemma map_id_update_where_id (id_ now : Z) (v : Values) (t : list Row) :
  map ParserRequestDb.id (update_where_id id_ now v t) = map ParserRequestDb.id t.
Proof.
  induction t as [|r t IH]; simpl; [reflexivity|].
  rewrite IH. now destruct (has_id id_ r).
Qed.

(** The ids in the table and the id sequence after an operation. *)
Lemma perform_ids {V : FieldValidators} (op : Op) (w : World) :
  (map ParserRequestDb.id (table (perform op w)) = map ParserRequestDb.id (table w) /\
   next_id w <= next_id (perform op w)) \/
  (map ParserRequestDb.id (table (perform op w))
   = map ParserRequestDb.id (table w) ++ [next_id w] /\
   next_id (perform op w) = next_id w + 1).
Proof.
  destruct op; unfold perform, after.
  - rewrite create_run. destruct (healthy 2 w).
    + right. cbv zeta.
      destruct (DetailParserRequest.model_validate _); simpl;
        rewrite map_app; split; reflexivity.
    + left. destruct (healthy 1 w); simpl; split; try reflexivity; lia.
  - left. rewrite update_status_run. destruct (healthy 2 w).
    + cbv zeta. destruct (filter _ _) as [|obj [|obj' rest]];
        try destruct (DetailParserRequest.model_validate obj); simpl;
        rewrite map_id_update_where_id; split; try reflexivity; lia.
    + simpl. split; [reflexivity|lia].
  - left. rewrite save_error_run. destruct (healthy 2 w); simpl;
      rewrite ?map_id_update_where_id; split; try reflexivity; lia.
  - left. rewrite save_empty_result_run. destruct (healthy 2 w); simpl;
      rewrite ?map_id_update_where_id; split; try reflexivity; lia.
  - left. rewrite save_successful_result_run. destruct (healthy 2 w); simpl;
      rewrite ?map_id_update_where_id; split; try reflexivity; lia.
Qed.

Lemma perform_ids_fresh {V : FieldValidators} (op : Op) (w : World) :
  ids_fresh w -> ids_fresh (perform op w).
Proof.
  unfold ids_fresh. intros [Hnd Hlt].
  assert (Hlt' : Forall (fun i => i < next_id w) (map ParserRequestDb.id (table w))).
  { rewrite Forall_map. exact Hlt. }
  rewrite <- Forall_map with (f := ParserRequestDb.id)
                             (P := fun i => i < next_id (perform op w)).
  destruct (perform_ids op w) as [[Hids Hnext]|[Hids Hnext]]; rewrite Hids.
  - split; [exact Hnd|].
    eapply Forall_impl; [|exact Hlt']. simpl. intros i Hi. lia.
  - split.
    + apply NoDup_app; [exact Hnd|repeat constructor; simpl; tauto|].
      intros i Hin [<-|[]]. rewrite Forall_forall in Hlt'.
      specialize (Hlt' _ Hin). lia.
    + apply Forall_app. split.
      * eapply Forall_impl; [|exact Hlt']. simpl. intros i Hi. lia.
      * repeat constructor. lia.
Qed.

(** X11.  With ids drawn from the id sequence, ids stay unique: from a
    world in which no id occurs twice and the sequence is ahead of every id
    in the table (an empty table, say), every sequence of store operations,
    whatever the clock and the driver do, leads to such a world again; in
    particular the next id [create] hands out is carried by no row. *)
Theorem run_keeps_ids_fresh {V : FieldValidators} (calls : list Call) (w : World) :
  ids_fresh w ->
  ids_fresh (run calls w) /\ known (next_id (run calls w)) (run calls w) = false.
Proof.
  intros Hfresh.
  assert (Hrun : ids_fresh (run calls w)).
  { revert w Hfresh. induction calls as [|c calls IH]; intros w Hfresh;
      [exact Hfresh|].
    unfold run. simpl. apply IH. unfold run_call.
    apply perform_ids_fresh. exact Hfresh. }
  split; [exact Hrun|].
  destruct Hrun as [_ Hlt]. unfold known.
  destruct (existsb _ _) eqn:Hex; [|reflexivity].
  apply existsb_exists in Hex as [r [Hin Hid]].
  rewrite Forall_forall in Hlt. specialize (Hlt r Hin).
  unfold has_id in Hid. apply Z.eqb_eq in Hid. lia.
Qed.

Lemma run_keeps_ids_fresh_witness :
  ids_fresh empty_world /\
  ids_fresh (@run strict_validators two_lifecycles empty_world) /\
  known (next_id (@run strict_validators two_lifecycles empty_world))
    (@run strict_validators two_lifecycles empty_world) = false.
Proof.
  assert (H0 : ids_fresh empty_world) by (split; constructor).
  split; [exact H0|].
  exact (@run_keeps_ids_fresh strict_validators two_lifecycles empty_world H0).
Defined.

(** ** Statistics over the whole table *)

Lemma is_of_type_exclusive {E : Engine} (r : Row) :
  is_of_type VK_SIMPLE_DOWNLOAD r && is_of_type VK_DOWNLOAD_AND_PARSED_POSTS r = false.
Proof.
  unfold is_of_type.
  destruct (astext "parser_type" (ParserRequestDb.input_data r)) as [s|];
    [|reflexivity].
  destruct (String.eqb s (ParserTypes_value VK_SIMPLE_DOWNLOAD)) eqn:Hs;
    [|reflexivity].
  apply String.eqb_eq in Hs. subst s. reflexivity.
Qed.

Lemma known_type_rows {E : Engine} (t : list Row) :
  Z.of_nat (List.length (filter has_known_type t))
  = Z.of_nat (List.length (filter (is_of_type VK_SIMPLE_DOWNLOAD) t))
    + Z.of_nat (List.length (filter (is_of_type VK_DOWNLOAD_AND_PARSED_POSTS) t)).
Proof.
  induction t as [|r t IH]; [reflexivity|].
  cbn [filter]. unfold has_known_type at 1. cbn [existsb ParserTypes_members].
  pose proof (is_of_type_exclusive r) as Hex.
  destruct (is_of_type VK_SIMPLE_DOWNLOAD r),
           (is_of_type VK_DOWNLOAD_AND_PARSED_POSTS r);
    try discriminate; cbn [orb List.length]; rewrite ?Nat2Z.inj_succ; lia.
Qed.

Lemma tagged_third (p : ParserTypes) (res : list (RequestStatus * Z)) :
  map (fun '(_, _, n) => n) (tagged p res) = map snd res.
Proof.
  unfold tagged. rewrite map_map. apply map_ext. now intros [st n].
Qed.

(** X12.  Taken over all parser types, [stat] counts every row at most
    once: with a healthy driver the counts it returns add up to the number
    of rows whose [input_data] carries the discriminator of a known parser
    type; a row without one is left out of the statistics. *)
Theorem stat_counts_rows_once {E : Engine} (w : World) :
  healthy 2 w = true ->
  exists out : list (ParserTypes * RequestStatus * Z),
    result stat w = Return out /\
    sumZ (map (fun '(_, _, n) => n) out)
    = Z.of_nat (List.length (filter has_known_type (table w))) /\
    sumZ (map (fun '(_, _, n) => n) out) <= Z.of_nat (List.length (table w)).
Proof.
  intros Hh. unfold result. rewrite stat_run, Hh. simpl.
  eexists. split; [reflexivity|].
  rewrite app_nil_r, map_app, !tagged_third, sumZ_app, !group_by_status_sum.
  rewrite known_type_rows. split; [reflexivity|].
  rewrite <- known_type_rows.
  apply Nat2Z.inj_le, filter_length_le.
Qed.

Lemma stat_counts_rows_once_witness :
  healthy 2 (mkWorld (new_row 9 90 untagged_payload :: table three_requests)
               10 140 [] []) = true /\
  exists out : list (ParserTypes * RequestStatus * Z),
    result (@stat heap_engine)
      (mkWorld (new_row 9 90 untagged_payload :: table three_requests) 10 140 [] [])
    = Return out /\
    sumZ (map (fun '(_, _, n) => n) out) = 3.
Proof.
  split; [reflexivity|].
  destruct (@stat_counts_rows_once heap_engine
              (mkWorld (new_row 9 90 untagged_payload :: table three_requests)
                 10 140 [] []) eq_refl)
    as [out [Hres [Hsum _]]].
  exists out. split; [exact Hres|exact Hsum].
Defined.

(** * The models *)

(** X13.  The input union reads the discriminator and nothing else to tell
    its variants apart: a payload whose [parser_type] is missing, is not a
    string, or names no parser type is rejected whatever else it holds, and
    a row holding such a payload has no detail record. *)
Theorem input_union_rejects_bad_tag {V : FieldValidators} (j : json) :
  (forall pt : ParserTypes,
      field "parser_type" j <> Some (JStr (ParserTypes_value pt))) ->
  InputData.model_validate j = None /\
  forall r : Row,
    ParserRequestDb.input_data r = j -> DetailParserRequest.model_validate r = None.
Proof.
  intros Htag.
  assert (Hnone : InputData.model_validate j = None).
  { unfold InputData.model_validate.
    destruct (field "parser_type" j) as [[| | |s| |]|]; try reflexivity.
    destruct (String.eqb s (ParserTypes_value VK_DOWNLOAD_AND_PARSED_POSTS)) eqn:Hp.
    - apply String.eqb_eq in Hp. subst s.
      now destruct (Htag VK_DOWNLOAD_AND_PARSED_POSTS).
    - destruct (String.eqb s (ParserTypes_value VK_SIMPLE_DOWNLOAD)) eqn:Hs;
        [|reflexivity].
      apply String.eqb_eq in Hs. subst s. now destruct (Htag VK_SIMPLE_DOWNLOAD). }
  split; [exact Hnone|].
  intros r <-. unfold DetailParserRequest.model_validate. now rewrite Hnone.
Qed.

Lemma input_union_rejects_bad_tag_witness :
  (forall pt : ParserTypes,
      field "parser_type" untagged_payload <> Some (JStr (ParserTypes_value pt))) /\
  @InputData.model_validate strict_validators untagged_payload = None.
Proof.
  assert (H : forall pt : ParserTypes,
             field "parser_type" untagged_payload
             <> Some (JStr (ParserTypes_value pt))) by (intros pt; discriminate).
  split; [exact H|].
  exact (proj1 (@input_union_rejects_bad_tag strict_validators untagged_payload H)).
Defined.

(** X14.  The variant of a validated input is the one its discriminator
    names, never the one its other fields would fit: a payload validates as
    a simple download exactly when its tag is [VK_SIMPLE_DOWNLOAD] and its
    [group_url] and [max_age] validate, and as a download-and-parse request
    exactly when its tag is [VK_DOWNLOAD_AND_PARSED_POSTS] and its
    [group_url], [posted_up_to] and [max_age] validate; fields beyond those
    are ignored. *)
Theorem input_union_dispatches_on_tag {V : FieldValidators} (j : json) :
  (forall d : SimpleVkInputData.t,
      InputData.model_validate j = Some (InputData.Simple d) <->
      field "parser_type" j = Some (JStr (ParserTypes_value VK_SIMPLE_DOWNLOAD)) /\
      opt_bind (field "group_url" j) v_url = Some (SimpleVkInputData.group_url d) /\
      opt_bind (field "max_age" j) v_int = Some (SimpleVkInputData.max_age d)) /\
  (forall d : ParsePostsVkInputData.t,
      InputData.model_validate j = Some (InputData.ParsePosts d) <->
      field "parser_type" j
      = Some (JStr (ParserTypes_value VK_DOWNLOAD_AND_PARSED_POSTS)) /\
      opt_bind (field "group_url" j) v_url
      = Some (ParsePostsVkInputData.group_url d) /\
      opt_bind (field "posted_up_to" j) v_datetime
      = Some (ParsePostsVkInputData.posted_up_to d) /\
      opt_bind (field "max_age" j) v_int = Some (ParsePostsVkInputData.max_age d)).
Proof.
  unfold InputData.model_validate, SimpleVkInputData.model_validate,
    ParsePostsVkInputData.model_validate.
  split; intros d.
  - destruct (field "parser_type" j) as [[| | |s| |]|]; cbn [opt_bind];
      try (split; [discriminate|intros [[=] _]]).
    destruct (String.eqb s (ParserTypes_value VK_DOWNLOAD_AND_PARSED_POSTS)) eqn:Hp.
    + apply String.eqb_eq in Hp. subst s. simpl. split.
      * destruct (opt_bind (field "group_url" j) v_url); simpl; [|discriminate].
        destruct (opt_bind (field "posted_up_to" j) v_datetime); simpl;
          [|discriminate].
        destruct (opt_bind (field "max_age" j) v_int); simpl; discriminate.
      * intros [[=] _].
    + destruct (String.eqb s (ParserTypes_value VK_SIMPLE_DOWNLOAD)) eqn:Hs.
      * apply String.eqb_eq in Hs. subst s.
        destruct (opt_bind (field "group_url" j) v_url) as [u|]; simpl;
          [|split; [discriminate|intros [_ [[=] _]]]].
        destruct (opt_bind (field "max_age" j) v_int) as [a|]; simpl;
          [|split; [discriminate|intros [_ [_ [=]]]]].
        split.
        -- intros [= <-]. simpl. repeat split.
        -- intros [_ [[= ->] [= ->]]]. now destruct d.
      * split; [discriminate|].
        intros [[= ->] _]. simpl in Hs. discriminate.
  - destruct (field "parser_type" j) as [[| | |s| |]|]; cbn [opt_bind];
      try (split; [discriminate|intros [[=] _]]).
    destruct (String.eqb s (ParserTypes_value VK_DOWNLOAD_AND_PARSED_POSTS)) eqn:Hp.
    + apply String.eqb_eq in Hp. subst s. simpl.
      destruct (opt_bind (field "group_url" j) v_url) as [u|]; simpl;
        [|split; [discriminate|intros [_ [[=] _]]]].
      destruct (opt_bind (field "posted_up_to" j) v_datetime) as [p|]; simpl;
        [|split; [discriminate|intros [_ [_ [[=] _]]]]].
      destruct (opt_bind (field "max_age" j) v_int) as [a|]; simpl;
        [|split; [discriminate|intros [_ [_ [_ [=]]]]]].
      split.
      * intros [= <-]. simpl. repeat split.
      * intros [_ [[= ->] [[= ->] [= ->]]]]. now destruct d.
    + split.
      * destruct (String.eqb s (ParserTypes_value VK_SIMPLE_DOWNLOAD));
          [|discriminate].
        destruct (opt_bind (field "group_url" j) v_url); simpl; [|discriminate].
        destruct (opt_bind (field "max_age" j) v_int); simpl; discriminate.
      * intros [[= ->] _]. simpl in Hp. discriminate.
Qed.

(** X15.  The list view and the detail view of a row agree.  The summary
    of a row always exists; the detail record exists exactly when the input
    validates and the result, unless the column is empty or holds JSON
    [null], validates; and when it exists it shows the same id, time
    stamps, status, finish time and error message as the summary, next to
    the validated input, and no result for an empty or [null] column. *)
Theorem detail_and_summary_agree {V : FieldValidators} (r : Row) :
  (DetailParserRequest.model_validate r <> None <->
   InputData.model_validate (ParserRequestDb.input_data r) <> None /\
   forall j : json,
     ParserRequestDb.result_data r = Some j -> j <> JNull ->
     ResultData.model_validate j <> None) /\
  forall d : DetailParserRequest.t,
    DetailParserRequest.model_validate r = Some d ->
    ParserRequest.model_validate r
    = Some (ParserRequest.Build
              (DetailParserRequest.id d) (DetailParserRequest.created_at d)
              (DetailParserRequest.updated_at d) (DetailParserRequest.status d)
              (DetailParserRequest.finished_at d)
              (DetailParserRequest.error_message d)) /\
    InputData.model_validate (ParserRequestDb.input_data r)
    = Some (DetailParserRequest.input_data d) /\
    (ParserRequestDb.result_data r = None \/
     ParserRequestDb.result_data r = Some JNull ->
     DetailParserRequest.result_data d = None).
Proof.
  split.
  - unfold DetailParserRequest.model_validate.
    destruct (InputData.model_validate (ParserRequestDb.input_data r)) as [i|];
      cbn [opt_bind];
      [|split; [intros H; now destruct H|intros [H _]; now destruct H]].
    destruct (ParserRequestDb.result_data r) as [j|];
      [|split; [intros _; split; discriminate|discriminate]].
    assert (Hcase : j = JNull \/
                    (j <> JNull /\
                     DetailParserRequest.validate_result_data (Some j)
                     = option_map Some (ResultData.model_validate j))).
    { destruct j; [now left|right; split; [discriminate|reflexivity]..]. }
    destruct Hcase as [->|[Hj ->]].
    + simpl. split; [|discriminate]. intros _. split; [discriminate|].
      intros j [= <-] Hne. now destruct Hne.
    + destruct (ResultData.model_validate j) as [rd|] eqn:Hrd; simpl.
      * split; [|discriminate]. intros _. split; [discriminate|].
        intros j' [= <-] _. now rewrite Hrd.
      * split; [intros H; now destruct H|].
        intros [_ H]. now destruct (H j eq_refl Hj).
  - intros d Hd.
    destruct (detail_columns r Hd) as [-> [-> [-> [-> [-> ->]]]]].
    split; [reflexivity|].
    unfold DetailParserRequest.model_validate in Hd.
    destruct (InputData.model_validate (ParserRequestDb.input_data r)) as [i|];
      simpl in Hd; [|discriminate].
    destruct (DetailParserRequest.validate_result_data
                (ParserRequestDb.result_data r)) as [rd|] eqn:Hrd;
      simpl in Hd; [|discriminate].
    injection Hd as <-. simpl. split; [reflexivity|].
    intros [Hnull|Hnull]; rewrite Hnull in Hrd; simpl in Hrd; congruence.
Qed.

(** A row whose result column holds JSON [null] reads as a record without
    a result. *)
Example detail_of_null_result :
  @DetailParserRequest.model_validate strict_validators
    (ParserRequestDb.Build 1 100 100 PENDING simple_payload (Some JNull) None None)
  = Some (DetailParserRequest.Build 1 100 100 PENDING
            (InputData.Simple (SimpleVkInputData.Build "https://vk.com/example" 10))
            None None None).
Proof.
  reflexivity.
Qed.

(** * The request handlers *)

(** X16.  [_parse_json] answers with the first schema that fits: it
    returns a model exactly when the body of the request decodes and that
    model is what the first schema of the list that accepts the body makes
    of it; every schema before it has rejected the body, and the schemas
    after it are not consulted. *)
Theorem parse_json_first_match (A : Type) (request : Request)
    (schemas : list (Schema A)) (m : A) :
  _parse_json request schemas = inl m <->
  exists (data : json) (pre : list (Schema A)) (schema : Schema A)
         (post : list (Schema A)),
    request_json request = BodyJson data /\
    schemas = pre ++ schema :: post /\
    Forall (fun s => exists e, s data = inr e) pre /\
    schema data = inl m.
Proof.
  unfold _parse_json. cbv zeta. generalize (@None (Parsed A)) as result.
  induction schemas as [|s schemas IH]; intros result.
  - simpl. split.
    + destruct result as [[| |]|]; discriminate.
    + intros [data [pre [schema [post [_ [Heq _]]]]]].
      now destruct pre.
  - simpl. unfold _parse_schema.
    destruct (request_json request) as [data| |exc] eqn:Hreq.
    + destruct (s data) as [m'|e] eqn:Hs.
      * split.
        -- intros [= ->]. exists data, [], s, schemas. repeat split; auto.
        -- intros [data' [pre [schema [post [[= <-] [Heq [Hpre Hm]]]]]]].
           destruct pre as [|s' pre]; simpl in Heq; injection Heq as <- ->.
           ++ congruence.
           ++ inversion Hpre as [|? ? [e He] _]; subst. congruence.
      * rewrite IH. split.
        -- intros [data' [pre [schema [post [[= <-] [-> [Hpre Hm]]]]]]].
           exists data, (s :: pre), schema, post. repeat split; auto.
           constructor; [now exists e|exact Hpre].
        -- intros [data' [pre [schema [post [[= <-] [Heq [Hpre Hm]]]]]]].
           destruct pre as [|s' pre]; simpl in Heq; injection Heq as <- ->.
           ++ congruence.
           ++ exists data, pre, schema, post. repeat split; auto.
              now inversion Hpre.
    + split; [discriminate|].
      intros [data' [pre [schema [post [[=] _]]]]].
    + split; [discriminate|].
      intros [data' [pre [schema [post [[=] _]]]]].
Qed.

(** X17.  What the caller of [_parse_json] gets when no model comes back.
    Without schemas it is the bad request "Incorrent input", whatever the
    body is (the body is not read).  With schemas: a body that is not JSON
    gives the bad request "Invalid input params"; an exception of reading
    the body other than [orjson.JSONDecodeError] (a [UnicodeDecodeError],
    say) is not caught and reaches the caller as it is, not as a bad
    request; and a body that decodes and that every schema rejects gives a
    bad request with the validation error of the last schema of the list,
    not of the first. *)
Theorem parse_json_failures (A : Type) (request : Request)
    (schemas : list (Schema A)) :
  (schemas = [] ->
   _parse_json request schemas
   = inr (HTTPBadRequest (Some "Incorrent input") None)) /\
  (schemas <> [] -> request_json request = BodyJSONDecodeError ->
   _parse_json request schemas
   = inr (HTTPBadRequest (Some "Invalid input params") None)) /\
  (forall exc : string,
      schemas <> [] -> request_json request = BodyRaises exc ->
      _parse_json request schemas = inr (Uncaught exc)) /\
  (forall (data : json) (pre : list (Schema A)) (last : Schema A) (e : string),
      request_json request = BodyJson data ->
      schemas = pre ++ [last] ->
      Forall (fun s => exists e', s data = inr e') pre ->
      last data = inr e ->
      _parse_json request schemas = inr (HTTPBadRequest None (Some e))).
Proof.
  split; [|split; [|split]].
  - intros ->. reflexivity.
  - intros Hne Hreq. destruct schemas as [|s schemas]; [now destruct Hne|].
    unfold _parse_json. simpl. unfold _parse_schema. now rewrite Hreq.
  - intros exc Hne Hreq. destruct schemas as [|s schemas]; [now destruct Hne|].
    unfold _parse_json. simpl. unfold _parse_schema. now rewrite Hreq.
  - intros data pre last e Hreq -> Hpre Hlast.
    unfold _parse_json. cbv zeta. generalize (@None (Parsed A)) as result.
    induction Hpre as [|s pre [e' He'] _ IH]; intros result; simpl;
      unfold _parse_schema; rewrite Hreq.
    + now rewrite Hlast.
    + rewrite He'. apply IH.
Qed.

(** Both input models reject a payload without a tag, and the error
    reported is that of the model tried last; a body that is not UTF-8
    text is no bad request. *)
Example parse_json_samples :
  _parse_json (mkRequest (BodyJson untagged_payload)) [posts_schema; simple_schema]
  = inr (HTTPBadRequest None (Some "SimpleVkInputData")) /\
  _parse_json (mkRequest (BodyJson simple_payload)) [posts_schema; simple_schema]
  = inl (InputData.Simple (SimpleVkInputData.Build "https://vk.com/example" 10)) /\
  _parse_json (mkRequest (BodyRaises "UnicodeDecodeError"))
    [posts_schema; simple_schema]
  = inr (Uncaught "UnicodeDecodeError").
Proof.
  repeat split.
Qed.

(** * Engine construction *)

Lemma dict_get_set_same (k : string) (v : PyObj) (d : Kwargs) :
  dict_get k (dict_set k v d) = v.
Proof.
  induction d as [|[k' v'] d IH]; simpl.
  - now rewrite String.eqb_refl.
  - destruct (String.eqb k k') eqn:Hk; simpl; rewrite Hk; [reflexivity|exact IH].
Qed.

Lemma dict_get_set_other (k k' : string) (v : PyObj) (d : Kwargs) :
  k <> k' -> dict_get k (dict_set k' v d) = dict_get k d.
Proof.
  intros Hne. induction d as [|[k0 v0] d IH]; simpl.
  - apply String.eqb_neq in Hne. now rewrite Hne.
  - destruct (String.eqb k' k0) eqn:Hk0; simpl.
    + apply String.eqb_eq in Hk0. subst k0.
      apply String.eqb_neq in Hne. now rewrite Hne.
    + destruct (String.eqb k k0); [reflexivity|exact IH].
Qed.

Lemma dict_has_set_other (k k' : string) (v : PyObj) (d : Kwargs) :
  k <> k' -> dict_has k (dict_set k' v d) = dict_has k d.
Proof.
  intros Hne. induction d as [|[k0 v0] d IH]; simpl.
  - apply String.eqb_neq in Hne. now rewrite Hne.
  - destruct (String.eqb k' k0) eqn:Hk0; simpl; [reflexivity|].
    now rewrite IH.
Qed.

(** The keywords after the two defaults are filled in. *)
Lemma defaults_filled (kwargs : Kwargs) :
  let kw1 :=
    if is_None (dict_get "json_serializer" kwargs)
    then dict_set "json_serializer" dumps kwargs else kwargs in
  let kw2 :=
    if is_None (dict_get "json_deserializer" kw1)
    then dict_set "json_deserializer" orjson_loads kw1 else kw1 in
  dict_get "json_serializer" kw2
  = (if is_None (dict_get "json_serializer" kwargs) then dumps
     else dict_get "json_serializer" kwargs) /\
  dict_get "json_deserializer" kw2
  = (if is_None (dict_get "json_deserializer" kwargs) then orjson_loads
     else dict_get "json_deserializer" kwargs) /\
  (forall k : string,
      k <> "json_serializer" -> k <> "json_deserializer" ->
      dict_get k kw2 = dict_get k kwargs /\ dict_has k kw2 = dict_has k kwargs).
Proof.
  intros kw1 kw2.
  assert (H1 : dict_get "json_deserializer" kw1 = dict_get "json_deserializer" kwargs).
  { subst kw1. destruct (is_None (dict_get "json_serializer" kwargs));
      [apply dict_get_set_other; discriminate|reflexivity]. }
  split; [|split].
  - subst kw2. destruct (is_None (dict_get "json_deserializer" kw1));
      rewrite ?dict_get_set_other by discriminate;
      subst kw1; destruct (is_None (dict_get "json_serializer" kwargs)) eqn:Hn;
      rewrite ?dict_get_set_same; reflexivity.
  - subst kw2. rewrite H1.
    destruct (is_None (dict_get "json_deserializer" kwargs));
      [apply dict_get_set_same|exact H1].
  - intros k Hk1 Hk2. subst kw2.
    destruct (is_None (dict_get "json_deserializer" kw1));
      rewrite ?dict_get_set_other, ?dict_has_set_other by exact Hk2;
      subst kw1; destruct (is_None (dict_get "json_serializer" kwargs));
      rewrite ?dict_get_set_other, ?dict_has_set_other by exact Hk1;
      split; reflexivity.
Qed.

(** X18.  [create_async_engine] ends in the call of SQLAlchemy's
    [create_async_engine] with the connection URI as [url], unless the
    caller's keywords hold [connection_uri] or [url] themselves: then
    Python raises a [TypeError] for the keyword given twice and no engine is
    made.  In the call, the JSON serializer and deserializer are filled in
    only where the caller gave none: a keyword that is absent or [None]
    becomes the default ([dumps], [orjson.loads]), a keyword the caller did
    set is passed on as it is, so neither is ever [None]; every other
    keyword is passed on unchanged. *)
Theorem create_async_engine_defaults (connection_uri : string) (kwargs : Kwargs) :
  let given := fun k => dict_get k kwargs in
  (dict_has "connection_uri" kwargs = true ->
   create_async_engine connection_uri kwargs
   = inr (TypeError_multiple_values "connection_uri")) /\
  (dict_has "connection_uri" kwargs = false -> dict_has "url" kwargs = true ->
   create_async_engine connection_uri kwargs
   = inr (TypeError_multiple_values "url")) /\
  (dict_has "connection_uri" kwargs = false -> dict_has "url" kwargs = false ->
   exists call : EngineCall,
     let passed := fun k => dict_get k (call_kwargs call) in
     create_async_engine connection_uri kwargs = inl call /\
     call_url call = connection_uri /\
     passed "json_serializer"
     = (if is_None (given "json_serializer") then dumps
        else given "json_serializer") /\
     passed "json_deserializer"
     = (if is_None (given "json_deserializer") then orjson_loads
        else given "json_deserializer") /\
     is_None (passed "json_serializer") = false /\
     is_None (passed "json_deserializer") = false /\
     forall k : string,
       k <> "json_serializer" -> k <> "json_deserializer" -> passed k = given k).
Proof.
  cbv zeta. unfold create_async_engine. cbv zeta.
  destruct (defaults_filled kwargs) as [Hser [Hde Hother]]. cbv zeta in *.
  destruct (Hother "url" ltac:(discriminate) ltac:(discriminate)) as [_ Hurl].
  rewrite Hurl.
  split; [intros ->; reflexivity|].
  split; [intros -> ->; reflexivity|].
  intros -> ->.
  eexists. split; [reflexivity|]. simpl.
  split; [reflexivity|]. split; [exact Hser|]. split; [exact Hde|].
  split; [rewrite Hser;
          now destruct (is_None (dict_get "json_serializer" kwargs)) eqn:Hn|].
  split; [rewrite Hde;
          now destruct (is_None (dict_get "json_deserializer" kwargs)) eqn:Hn|].
  intros k Hk1 Hk2. now destruct (Hother k Hk1 Hk2).
Qed.

(** An explicit [None] counts as not given; a caller's own serializer is
    kept, and the default deserializer lands behind the other keywords; a
    [url] among the keywords is refused. *)
Example create_async_engine_sample :
  create_async_engine "postgresql+asyncpg://db"
    [("json_serializer", PyNone); ("echo", PyData (JBool true))]
  = inl (mkEngineCall "postgresql+asyncpg://db"
           [("json_serializer", dumps); ("echo", PyData (JBool true));
            ("json_deserializer", orjson_loads)]) /\
  create_async_engine "postgresql+asyncpg://db"
    [("json_serializer", PyCallable "json.dumps")]
  = inl (mkEngineCall "postgresql+asyncpg://db"
           [("json_serializer", PyCallable "json.dumps");
            ("json_deserializer", orjson_loads)]) /\
  create_async_engine "postgresql+asyncpg://db"
    [("url", PyData (JStr "postgresql+asyncpg://other"))]
  = inr (TypeError_multiple_values "url").
Proof.
  repeat split.
Qed.

(** * Rows of other ids, and results *)

Lemma update_where_id_others (id_ now : Z) (v : Values) (t : list Row) :
  Forall2 (fun r r' => has_id id_ r = false -> r' = r) t
    (update_where_id id_ now v t).
Proof.
  induction t as [|r t IH]; simpl; constructor; [|exact IH].
  destruct (has_id id_ r); [discriminate|reflexivity].
Qed.

(** X19.  An operation that addresses an id writes to the rows of that id
    only: after [update_status] or a terminal save, whatever the driver
    does and whether the call returns or raises, the table has as many
    rows as before and every row of another id is exactly the row it
    was. *)
Theorem other_rows_untouched {V : FieldValidators} (op : Op) (id_ : Z) (w : World) :
  op_id op = Some id_ ->
  Forall2 (fun r r' => has_id id_ r = false -> r' = r)
    (table w) (table (perform op w)).
Proof.
  intros Hid.
  assert (Hrefl : Forall2 (fun r r' : Row => has_id id_ r = false -> r' = r)
                    (table w) (table w)).
  { induction (table w); constructor; auto. }
  destruct (perform_table op w) as [Hsame|Hchg]; [now rewrite Hsame|].
  destruct op; simpl in Hid; try discriminate; injection Hid as ->;
    rewrite Hchg; apply update_where_id_others.
Qed.

Lemma other_rows_untouched_witness :
  op_id (OpSaveError 1 150 "boom") = Some 1 /\
  Forall2 (fun r r' => has_id 1 r = false -> r' = r)
    (table three_requests)
    (table (@perform strict_validators (OpSaveError 1 150 "boom") three_requests)).
Proof.
  split; [reflexivity|].
  exact (@other_rows_untouched strict_validators (OpSaveError 1 150 "boom") 1
           three_requests eq_refl).
Defined.

(** X20.  Dumping a result and validating the dump gives the result back,
    so no two results have the same dump: with validators that take JSON
    numbers and strings as they are, [ResultData.model_validate] after
    [model_dump] returns the message and the user statistics, in their
    order, that went in. *)
Theorem result_data_round_trip {V : FieldValidators} (res res' : ResultData.t) :
  plain_scalars V ->
  ResultData.model_validate (ResultData.model_dump res) = Some res /\
  (ResultData.model_dump res = ResultData.model_dump res' -> res = res') /\
  field "message" (ResultData.model_dump res) = Some (JStr (ResultData.message res)) /\
  field "user_stat" (ResultData.model_dump res)
  = Some (JArr (map UserStat.model_dump (ResultData.user_stat res))).
Proof.
  intros Hplain. split; [now apply result_data_dump_validate|].
  split; [|split; reflexivity].
  intros Heq.
  pose proof (result_data_dump_validate res Hplain) as H1.
  pose proof (result_data_dump_validate res' Hplain) as H2.
  rewrite Heq in H1. rewrite H1 in H2. now injection H2.
Qed.

Lemma result_data_round_trip_witness :
  plain_scalars strict_validators /\
  @ResultData.model_validate strict_validators (ResultData.model_dump ok_result)
  = Some ok_result.
Proof.
  assert (Hplain : plain_scalars strict_validators) by (split; reflexivity).
  split; [exact Hplain|].
  exact (proj1 (@result_data_round_trip strict_validators ok_result ok_result Hplain)).
Defined.
